(** * PKCS#8 codec for GP elliptic-curve private keys (icao/pkcs8.js)

    Shallow embedding of [PKCS8.encodeUncompressedECPoint],
    [PKCS8.decodeUncompressedECPoint], [PKCS8.stripLeadingZeros],
    [PKCS8.encodeKeyUsingPKCS8Format] and [PKCS8.decodeKeyFromPKCS8Format],
    together with executable models of the host objects the script calls
    ([ByteString], [ByteBuffer], [ASN1], [Key]).

    Script exceptions are an explicit [result]; statements of the script are
    sequenced in source order, so the first failing call decides the error. *)

From Stdlib Require Import List ZArith NArith QArith Qround Bool Lia.
From Stdlib Require Import Strings.Byte Strings.Ascii Strings.String.
Import ListNotations.

Set Warnings "-register-all".
Local Open Scope Z_scope.

(* ------------------------------------------------------------------ *)
(** ** Exceptions of the scripting host *)

Inductive GPError : Type :=
| ASSERTION_FAILED   (* assert(cond) with a false condition *)
| INVALID_INDEX      (* offset, count or child index out of range *)
| INVALID_DATA       (* bytes or text that do not parse *)
| INVALID_TYPE       (* child access on a primitive node *)
| INVALID_LENGTH     (* content too long for a length field *)
| OBJECT_NOT_FOUND.  (* key component that was never set *)

Inductive result (A : Type) : Type :=
| Ok (a : A)
| Throw (e : GPError).

Arguments Ok {A} a.
Arguments Throw {A} e.

Definition bind {A B : Type} (r : result A) (k : A -> result B) : result B :=
  match r with
  | Ok a => k a
  | Throw e => Throw e
  end.

Notation "x <- e ;; k" := (bind e (fun x => k))
  (at level 61, e at next level, right associativity).

Definition assert (cond : bool) : result unit :=
  if cond then Ok tt else Throw ASSERTION_FAILED.

(** Conversion of a script Number to a host integer argument: the
    fractional part is dropped (rounding toward zero). *)
Definition toInteger (q : Q) : Z :=
  if Qle_bool 0 q then Qfloor q else Qceiling q.

(** The byte with the given value, taken modulo 256. *)
Definition byteOf (n : N) : byte :=
  match Byte.of_N (n mod 256) with
  | Some b => b
  | None => x00
  end.

(* ------------------------------------------------------------------ *)
(** ** ByteString *)

Module ByteString.

(** Modelled from the spec: the raw byte-sequence type of the host
    (slicing, concatenation, hex construction, equality); an immutable
    sequence of octets. *)
Definition t : Type := list byte.

Definition length (s : t) : Z := Z.of_nat (List.length s).

(** [s.byteAt(i)]: the unsigned value of the octet at [i]. *)
Definition byteAt (s : t) (i : Z) : result Z :=
  if (0 <=? i) && (i <? length s) then
    match nth_error s (Z.to_nat i) with
    | Some b => Ok (Z.of_N (Byte.to_N b))
    | None => Throw INVALID_INDEX
    end
  else Throw INVALID_INDEX.

(** [s.bytes(offset, count)]: [count] octets starting at [offset]. *)
Definition bytes (s : t) (offset count : Q) : result t :=
  let o := toInteger offset in
  let c := toInteger count in
  if (0 <=? o) && (0 <=? c) && (o + c <=? length s) then
    Ok (firstn (Z.to_nat c) (skipn (Z.to_nat o) s))
  else Throw INVALID_INDEX.

(** [s.right(count)]: the last [count] octets. *)
Definition right (s : t) (count : Z) : result t :=
  if (0 <=? count) && (count <=? length s) then
    Ok (skipn (Z.to_nat (length s - count)) s)
  else Throw INVALID_INDEX.

Definition concat (s1 s2 : t) : t := s1 ++ s2.

Definition equals (s1 s2 : t) : bool :=
  if list_eq_dec Byte.byte_eq_dec s1 s2 then true else false.

(** Hexadecimal text, as produced by [toString(HEX)] and accepted by
    [new ByteString(text, HEX)]. *)
Definition hexChar (n : N) : ascii :=
  if (n <? 10)%N then ascii_of_N (48 + n) else ascii_of_N (55 + n).

Definition hexValue (c : ascii) : option N :=
  let n := N_of_ascii c in
  if ((48 <=? n) && (n <=? 57))%N then Some (n - 48)%N
  else if ((65 <=? n) && (n <=? 70))%N then Some (n - 55)%N
  else if ((97 <=? n) && (n <=? 102))%N then Some (n - 87)%N
  else None.

Fixpoint toString (s : t) : string :=
  match s with
  | [] => EmptyString
  | b :: r =>
      String (hexChar (Byte.to_N b / 16))
        (String (hexChar (Byte.to_N b mod 16)) (toString r))
  end.

Fixpoint ofHex (text : string) : result t :=
  match text with
  | EmptyString => Ok []
  | String c1 (String c2 r) =>
      match hexValue c1, hexValue c2 with
      | Some h, Some l =>
          r' <- ofHex r ;;
          Ok (byteOf (16 * h + l) :: r')
      | _, _ => Throw INVALID_DATA
      end
  | String _ EmptyString => Throw INVALID_DATA
  end.

(** Base-128 digits of an object identifier arc, most significant first,
    every digit but the last with bit 8 set. *)
Fixpoint septets (fuel : nat) (n : N) (acc : t) : t :=
  match fuel with
  | O => acc
  | S f =>
      if (n =? 0)%N then acc
      else septets f (n / 128) (byteOf (128 + n mod 128) :: acc)
  end.

Definition arc (n : N) : t :=
  septets (N.to_nat (N.size n)) (n / 128) [byteOf (n mod 128)].

(** [new ByteString(dotted, OID)], the dotted text given as its arcs. *)
Definition ofOID (arcs : list N) : t :=
  match arcs with
  | a :: b :: r => byteOf (40 * a + b) :: flat_map arc r
  | _ => []
  end.

End ByteString.

(* ------------------------------------------------------------------ *)
(** ** ByteBuffer *)

Module ByteBuffer.

(** Modelled from the spec: a growable buffer of octets; [append] adds a
    ByteString at the end, [toByteString] returns the content. *)
Definition t : Type := list byte.

Definition new : t := [].
Definition append (bb : t) (s : ByteString.t) : t := bb ++ s.
Definition toByteString (bb : t) : ByteString.t := bb.

End ByteBuffer.

(* ------------------------------------------------------------------ *)
(** ** ASN1 *)

Module ASN1.

(** Modelled from the spec: the tag-length-value tree of the host, a
    builder taking (tag, raw bytes) or (tag, ordered child list) and
    producing the DER encoding, and a parser from raw bytes exposing
    indexable children and raw leaf values. Tags are single octets
    (tag numbers below 31); lengths are definite, of at most four
    octets in the long form. *)
Inductive t : Type :=
| Primitive (tag : byte) (value : ByteString.t)
| Constructed (tag : byte) (children : list t).

Definition INTEGER : byte := x02.
Definition OCTET_STRING : byte := x04.
Definition OBJECT_IDENTIFIER : byte := x06.
Definition SEQUENCE : byte := x30.

(** [new ASN1(tag)]: a node without content, to be filled by [add]. *)
Definition new (tag : byte) : t := Constructed tag [].

(** [new ASN1(tag, value)]. *)
Definition newValue (tag : byte) (value : ByteString.t) : t :=
  Primitive tag value.

(** [node.add(child)]: [child] becomes the last child of [node]. *)
Definition add (node child : t) : result t :=
  match node with
  | Constructed tag cs => Ok (Constructed tag (cs ++ [child]))
  | Primitive _ _ => Throw INVALID_TYPE
  end.

(** [node.get(i)]. *)
Definition get (node : t) (i : Z) : result t :=
  match node with
  | Constructed _ cs =>
      if 0 <=? i then
        match nth_error cs (Z.to_nat i) with
        | Some c => Ok c
        | None => Throw INVALID_INDEX
        end
      else Throw INVALID_INDEX
  | Primitive _ _ => Throw INVALID_TYPE
  end.

(** The length field of the encoding. *)
Definition encodeLength (len : nat) : result ByteString.t :=
  let n := N.of_nat len in
  if (n <? 128)%N then Ok [byteOf n]
  else if (n <? 256)%N then Ok [x81; byteOf n]
  else if (n <? 65536)%N then Ok [x82; byteOf (n / 256); byteOf n]
  else if (n <? 16777216)%N then
    Ok [x83; byteOf (n / 65536); byteOf (n / 256); byteOf n]
  else if (n <? 4294967296)%N then
    Ok [x84; byteOf (n / 16777216); byteOf (n / 65536);
        byteOf (n / 256); byteOf n]
  else Throw INVALID_LENGTH.

(** [node.getBytes()]: tag, length, then the value octets or the
    encodings of the children in order. A node filled by [add] is written
    with its children as content whatever its tag is: the OCTET STRING
    holding the ECPrivateKey sequence is built that way. *)
Fixpoint getBytes (node : t) : result ByteString.t :=
  match node with
  | Primitive tag v =>
      l <- encodeLength (List.length v) ;;
      Ok (tag :: l ++ v)
  | Constructed tag cs =>
      body <- (fix content (cs : list t) : result ByteString.t :=
                 match cs with
                 | [] => Ok []
                 | c :: r =>
                     e <- getBytes c ;;
                     es <- content r ;;
                     Ok (e ++ es)
                 end) cs ;;
      l <- encodeLength (List.length body) ;;
      Ok (tag :: l ++ body)
  end.

Fixpoint content (cs : list t) : result ByteString.t :=
  match cs with
  | [] => Ok []
  | c :: r =>
      e <- getBytes c ;;
      es <- content r ;;
      Ok (e ++ es)
  end.

(** [node.value]: the value field of the node. *)
Definition value (node : t) : result ByteString.t :=
  match node with
  | Primitive _ v => Ok v
  | Constructed _ cs => content cs
  end.

Definition tag (node : t) : byte :=
  match node with
  | Primitive tg _ => tg
  | Constructed tg _ => tg
  end.

(** Bit 6 of the tag octet. *)
Definition isConstructed (tg : byte) : bool := N.testbit (Byte.to_N tg) 5.

(** Tag number 31 announces a tag of several octets. *)
Definition isLongTag (tg : byte) : bool :=
  (N.land (Byte.to_N tg) 31 =? 31)%N.

Fixpoint bigEndian (acc : N) (bs : list byte) : N :=
  match bs with
  | [] => acc
  | b :: r => bigEndian (256 * acc + Byte.to_N b) r
  end.

Definition parseLength (bs : list byte) : option (nat * list byte) :=
  match bs with
  | [] => None
  | b :: r =>
      let n := Byte.to_N b in
      if (n <? 128)%N then Some (N.to_nat n, r)
      else
        let k := N.to_nat (n - 128) in
        if ((1 <=? k) && (k <=? 4) && (k <=? List.length r))%nat then
          Some (N.to_nat (bigEndian 0 (firstn k r)), skipn k r)
        else None
  end.

(** The nodes filling a value field exactly; [n] bounds their number. *)
Fixpoint parseMany (p : list byte -> option (t * list byte))
    (n : nat) (bs : list byte) : option (list t) :=
  match bs with
  | [] => Some []
  | _ :: _ =>
      match n with
      | O => None
      | S n' =>
          match p bs with
          | Some (c, r) =>
              match parseMany p n' r with
              | Some cs => Some (c :: cs)
              | None => None
              end
          | None => None
          end
      end
  end.

(** One node from the front of [bs], and the octets after it; [fuel]
    bounds the nesting depth. *)
Fixpoint parseTLV (fuel : nat) (bs : list byte) : option (t * list byte) :=
  match fuel with
  | O => None
  | S f =>
      match bs with
      | [] => None
      | tg :: r =>
          if isLongTag tg then None
          else
            match parseLength r with
            | None => None
            | Some (len, r') =>
                if (List.length r' <? len)%nat then None
                else
                  let v := firstn len r' in
                  let rest := skipn len r' in
                  if isConstructed tg then
                    match parseMany (parseTLV f) (List.length v) v with
                    | Some cs => Some (Constructed tg cs, rest)
                    | None => None
                    end
                  else Some (Primitive tg v, rest)
            end
      end
  end.

(** [new ASN1(encoded)]: the first node of [encoded]; octets after it
    are not looked at. The fuel is the length of the input, which is
    always enough. *)
Definition parse (encoded : ByteString.t) : result t :=
  match parseTLV (List.length encoded) encoded with
  | Some (node, _) => Ok node
  | None => Throw INVALID_DATA
  end.

End ASN1.

(* ------------------------------------------------------------------ *)
(** ** Key *)

Module Key.

Inductive keyType : Type := PRIVATE | PUBLIC | SECRET.

Inductive component : Type :=
| ECC_P | ECC_A | ECC_B | ECC_GX | ECC_GY | ECC_N | ECC_H
| ECC_D | ECC_QX | ECC_QY | ECC_CURVE_OID.

Definition keyType_eqb (a b : keyType) : bool :=
  match a, b with
  | PRIVATE, PRIVATE | PUBLIC, PUBLIC | SECRET, SECRET => true
  | _, _ => false
  end.

Definition component_eq_dec (a b : component) : {a = b} + {a <> b}.
Proof. decide equality. Defined.

(** Modelled from the spec: a store of named components with a kind,
    written by [setType] and [setComponent], read by [getType] and
    [getComponent]. *)
Record t : Type := mk {
  type : option keyType;
  components : component -> option ByteString.t
}.

Definition new : t := {| type := None; components := fun _ => None |}.

Definition setType (key : t) (ty : keyType) : t :=
  {| type := Some ty; components := components key |}.

Definition getType (key : t) : option keyType := type key.

Definition setComponent (key : t) (c : component) (v : ByteString.t) : t :=
  {| type := type key;
     components := fun c' =>
       if component_eq_dec c' c then Some v else components key c' |}.

Definition getComponent (key : t) (c : component) : result ByteString.t :=
  match components key c with
  | Some v => Ok v
  | None => Throw OBJECT_NOT_FOUND
  end.

(** [key.getType() == ty]. *)
Definition hasType (key : t) (ty : keyType) : bool :=
  match getType key with
  | Some ty' => keyType_eqb ty' ty
  | None => false
  end.

End Key.

(* ------------------------------------------------------------------ *)
(** ** PKCS8 *)

Module PKCS8.

Import Key.

(** [PKCS8.encodeUncompressedECPoint(x, y)]. A ByteString handed to
    [new ByteString(_, HEX)] is first turned into its hexadecimal text. *)
Definition encodeUncompressedECPoint (x y : ByteString.t)
  : result ByteString.t :=
  let bb := ByteBuffer.new in
  marker <- ByteString.ofHex "04" ;;
  let bb := ByteBuffer.append bb marker in
  xs <- ByteString.ofHex (ByteString.toString x) ;;
  let bb := ByteBuffer.append bb xs in
  ys <- ByteString.ofHex (ByteString.toString y) ;;
  let bb := ByteBuffer.append bb ys in
  Ok (ByteBuffer.toByteString bb).

Record coordinates : Type := { x : ByteString.t; y : ByteString.t }.

(** [PKCS8.decodeUncompressedECPoint(uncompressedPoint)]. The division
    is the script's: on an odd [length] it yields a half. *)
Definition decodeUncompressedECPoint (uncompressedPoint : ByteString.t)
  : result coordinates :=
  let length := ByteString.length uncompressedPoint - 1 in
  let sizeOfCoordinate := (inject_Z length / 2)%Q in
  xValue <- ByteString.bytes uncompressedPoint 1 sizeOfCoordinate ;;
  yValue <- ByteString.bytes uncompressedPoint
              (1 + sizeOfCoordinate)%Q sizeOfCoordinate ;;
  Ok {| x := xValue; y := yValue |}.

(** The [for] loop of [stripLeadingZeros]: the index at which it stops.
    It makes at most [value.length] iterations. *)
Fixpoint stripLoop (fuel : nat) (value : ByteString.t) (i : Z) : result Z :=
  match fuel with
  | O => Ok i
  | S f =>
      if i <? ByteString.length value then
        b <- ByteString.byteAt value i ;;
        if b =? 0 then stripLoop f value (i + 1) else Ok i
      else Ok i
  end.

(** [PKCS8.stripLeadingZeros(value)]. *)
Definition stripLeadingZeros (value : ByteString.t) : result ByteString.t :=
  i <- stripLoop (List.length value) value 0 ;;
  ByteString.right value (ByteString.length value - i).

Definition id_ecPublicKey : list N := [1; 2; 840; 10045; 2; 1]%N.
Definition prime_field : list N := [1; 2; 840; 10045; 1; 1]%N.

(** The tree assembled by [PKCS8.encodeKeyUsingPKCS8Format], before
    [getBytes]. *)
Definition privateKeyInfo (privateKey : Key.t) : result ASN1.t :=
  _ <- assert (Key.hasType privateKey PRIVATE) ;;
  let privateKeyInfo := ASN1.new ASN1.SEQUENCE in
  zero <- ByteString.ofHex "00" ;;
  privateKeyInfo <-
    ASN1.add privateKeyInfo (ASN1.newValue ASN1.INTEGER zero) ;;
  let privateKeyAlgorithm := ASN1.new ASN1.SEQUENCE in
  privateKeyAlgorithm <-
    ASN1.add privateKeyAlgorithm
      (ASN1.newValue ASN1.OBJECT_IDENTIFIER
         (ByteString.ofOID id_ecPublicKey)) ;;
  let domainInfo := ASN1.new ASN1.SEQUENCE in
  h <- getComponent privateKey ECC_H ;;
  h <- stripLeadingZeros h ;;
  domainInfo <- ASN1.add domainInfo (ASN1.newValue ASN1.INTEGER h) ;;
  let field := ASN1.new ASN1.SEQUENCE in
  field <-
    ASN1.add field
      (ASN1.newValue ASN1.OBJECT_IDENTIFIER
         (ByteString.ofOID prime_field)) ;;
  primeOrder <- getComponent privateKey ECC_P ;;
  first <- ByteString.byteAt primeOrder 0 ;;
  field <-
    (if 128 <=? first then
       pad <- ByteString.ofHex "00" ;;
       p <- getComponent privateKey ECC_P ;;
       ASN1.add field
         (ASN1.newValue ASN1.INTEGER (ByteString.concat pad p))
     else
       p <- getComponent privateKey ECC_P ;;
       ASN1.add field (ASN1.newValue ASN1.INTEGER p)) ;;
  domainInfo <- ASN1.add domainInfo field ;;
  let coeff := ASN1.new ASN1.SEQUENCE in
  a <- getComponent privateKey ECC_A ;;
  coeff <- ASN1.add coeff (ASN1.newValue ASN1.OCTET_STRING a) ;;
  b <- getComponent privateKey ECC_B ;;
  coeff <- ASN1.add coeff (ASN1.newValue ASN1.OCTET_STRING b) ;;
  domainInfo <- ASN1.add domainInfo coeff ;;
  gx <- getComponent privateKey ECC_GX ;;
  gy <- getComponent privateKey ECC_GY ;;
  point <- encodeUncompressedECPoint gx gy ;;
  domainInfo <-
    ASN1.add domainInfo (ASN1.newValue ASN1.OCTET_STRING point) ;;
  groupOrder <- getComponent privateKey ECC_N ;;
  first <- ByteString.byteAt groupOrder 0 ;;
  domainInfo <-
    (if 128 <=? first then
       pad <- ByteString.ofHex "00" ;;
       n <- getComponent privateKey ECC_N ;;
       ASN1.add domainInfo
         (ASN1.newValue ASN1.INTEGER (ByteString.concat pad n))
     else
       n <- getComponent privateKey ECC_N ;;
       ASN1.add domainInfo (ASN1.newValue ASN1.INTEGER n)) ;;
  privateKeyAlgorithm <- ASN1.add privateKeyAlgorithm domainInfo ;;
  privateKeyInfo <- ASN1.add privateKeyInfo privateKeyAlgorithm ;;
  let encodedPrivateKey := ASN1.new ASN1.OCTET_STRING in
  pk <- getComponent privateKey ECC_D ;;
  let key := ASN1.new ASN1.SEQUENCE in
  one <- ByteString.ofHex "01" ;;
  key <- ASN1.add key (ASN1.newValue ASN1.INTEGER one) ;;
  key <- ASN1.add key (ASN1.newValue ASN1.OCTET_STRING pk) ;;
  encodedPrivateKey <- ASN1.add encodedPrivateKey key ;;
  ASN1.add privateKeyInfo encodedPrivateKey.

(** [PKCS8.encodeKeyUsingPKCS8Format(privateKey)]. *)
Definition encodeKeyUsingPKCS8Format (privateKey : Key.t)
  : result ByteString.t :=
  privateKeyInfo <- privateKeyInfo privateKey ;;
  ASN1.getBytes privateKeyInfo.

(** [PKCS8.decodeKeyFromPKCS8Format(encodedKey)]. *)
Definition decodeKeyFromPKCS8Format (encodedKey : ByteString.t)
  : result Key.t :=
  let key := Key.new in
  let key := setType key PRIVATE in
  p8 <- ASN1.parse encodedKey ;;
  privKeyBlock <- ASN1.get p8 2 ;;
  blockValue <- ASN1.value privKeyBlock ;;
  encodedKey <- ASN1.parse blockValue ;;
  d <- ASN1.get encodedKey 1 ;;
  d <- ASN1.value d ;;
  let key := setComponent key ECC_D d in
  algorithm <- ASN1.get p8 1 ;;
  domainParameter <- ASN1.get algorithm 1 ;;
  cofactor <- ASN1.get domainParameter 0 ;;
  h <- ASN1.value cofactor ;;
  let key := setComponent key ECC_H h in
  field <- ASN1.get domainParameter 1 ;;
  order <- ASN1.get field 1 ;;
  p <- ASN1.value order ;;
  let key := setComponent key ECC_P p in
  coeff <- ASN1.get domainParameter 2 ;;
  coeff_A <- ASN1.get coeff 0 ;;
  a <- ASN1.value coeff_A ;;
  let key := setComponent key ECC_A a in
  coeff <- ASN1.get domainParameter 2 ;;
  coeff_B <- ASN1.get coeff 1 ;;
  b <- ASN1.value coeff_B ;;
  let key := setComponent key ECC_B b in
  generator <- ASN1.get domainParameter 3 ;;
  generatorPoint <- ASN1.value generator ;;
  coordinates <- decodeUncompressedECPoint generatorPoint ;;
  let key := setComponent key ECC_GX (x coordinates) in
  let key := setComponent key ECC_GY (y coordinates) in
  groupOrder <- ASN1.get domainParameter 4 ;;
  n <- ASN1.value groupOrder ;;
  let key := setComponent key ECC_N n in
  Ok key.

Definition brainpoolP256r1 : list N := [1; 3; 36; 3; 3; 2; 8; 1; 1; 7]%N.

(** [PKCS8.test()]. The key pair comes from the crypto provider of the
    host: [generateKeyPair] stands for [crypto.generateKeyPair(Crypto.EC,
    pubKey, priKey)] and returns the two keys as the call leaves them. *)
Definition test
    (generateKeyPair : Key.t -> Key.t -> result (Key.t * Key.t))
  : result unit :=
  let ecCurve := brainpoolP256r1 in
  let pubKey := Key.new in
  let pubKey := setType pubKey PUBLIC in
  let pubKey := setComponent pubKey ECC_CURVE_OID (ByteString.ofOID ecCurve) in
  let priKey := Key.new in
  let priKey := setType priKey PRIVATE in
  let priKey := setComponent priKey ECC_CURVE_OID (ByteString.ofOID ecCurve) in
  keys <- generateKeyPair pubKey priKey ;;
  let pubKey := fst keys in
  let priKey := snd keys in
  p8Key <- encodeKeyUsingPKCS8Format priKey ;;
  decodedKeyObject <- decodeKeyFromPKCS8Format p8Key ;;
  l <- getComponent decodedKeyObject ECC_D ;;
  r <- getComponent priKey ECC_D ;;
  _ <- assert (ByteString.equals l r) ;;
  l <- getComponent decodedKeyObject ECC_GX ;;
  r <- getComponent priKey ECC_GX ;;
  _ <- assert (ByteString.equals l r) ;;
  l <- getComponent decodedKeyObject ECC_GY ;;
  r <- getComponent priKey ECC_GY ;;
  _ <- assert (ByteString.equals l r) ;;
  l <- getComponent decodedKeyObject ECC_A ;;
  r <- getComponent pubKey ECC_A ;;
  _ <- assert (ByteString.equals l r) ;;
  l <- getComponent decodedKeyObject ECC_B ;;
  r <- getComponent pubKey ECC_B ;;
  _ <- assert (ByteString.equals l r) ;;
  refp8Key <- encodeKeyUsingPKCS8Format decodedKeyObject ;;
  _ <- assert (ByteString.equals p8Key refp8Key) ;;
  Ok tt.

End PKCS8.

(* ------------------------------------------------------------------ *)
(** ** Reference notions used in the statements *)

Import Key PKCS8.

(** The suffix left after the longest prefix of zero octets. *)
Fixpoint dropZeros (s : ByteString.t) : ByteString.t :=
  match s with
  | [] => []
  | b :: r => if Byte.eqb b x00 then dropZeros r else s
  end.

(** Nodes the parser can return: the constructed bit of the tag says
    whether the node has children, and the tag is a single octet. *)
Fixpoint canonical (node : ASN1.t) : bool :=
  match node with
  | ASN1.Primitive tg _ =>
      negb (ASN1.isConstructed tg) && negb (ASN1.isLongTag tg)
  | ASN1.Constructed tg cs =>
      ASN1.isConstructed tg && negb (ASN1.isLongTag tg)
      && forallb canonical cs
  end.

(** Nesting depth of a tree. *)
Fixpoint depth (node : ASN1.t) : nat :=
  match node with
  | ASN1.Primitive _ _ => 1
  | ASN1.Constructed _ cs => S (list_max (map depth cs))
  end.

(** An upper bound of the length of the encoding of a tree. *)
Fixpoint size (node : ASN1.t) : nat :=
  match node with
  | ASN1.Primitive _ v => 6 + List.length v
  | ASN1.Constructed _ cs => 6 + list_sum (map size cs)
  end.

(** The sign-padding rule in the schema's words: a zero octet goes in
    front exactly when the first octet has its high bit set. *)
Definition signPadded (s : ByteString.t) : ByteString.t :=
  match s with
  | [] => []
  | b :: _ => if N.testbit (Byte.to_N b) 7 then x00 :: s else s
  end.

(** The node reached from [root] by the child indices of [path]. *)
Definition nodeAt (root : ASN1.t) (path : list Z) : result ASN1.t :=
  fold_left (fun r i => node <- r ;; ASN1.get node i) path (Ok root).

(** Trees of the nesting of PrivateKeyInfo, with the tag of every node
    left open: [tg i] is the tag of the [i]-th node in document order.
    The private-key block is a leaf holding [block]. *)
Definition shaped (tg : nat -> byte)
    (oid1 h oid2 p a b g n block : ByteString.t) : ASN1.t :=
  ASN1.Constructed (tg 0%nat)
    [ ASN1.Primitive (tg 1%nat) [x00];
      ASN1.Constructed (tg 2%nat)
        [ ASN1.Primitive (tg 3%nat) oid1;
          ASN1.Constructed (tg 4%nat)
            [ ASN1.Primitive (tg 5%nat) h;
              ASN1.Constructed (tg 6%nat)
                [ ASN1.Primitive (tg 7%nat) oid2;
                  ASN1.Primitive (tg 8%nat) p ];
              ASN1.Constructed (tg 9%nat)
                [ ASN1.Primitive (tg 10%nat) a;
                  ASN1.Primitive (tg 11%nat) b ];
              ASN1.Primitive (tg 12%nat) g;
              ASN1.Primitive (tg 13%nat) n ] ];
      ASN1.Primitive (tg 14%nat) block ].

Definition shapedKey (tg : nat -> byte) (d : ByteString.t) : ASN1.t :=
  ASN1.Constructed (tg 15%nat)
    [ ASN1.Primitive (tg 16%nat) [x01];
      ASN1.Primitive (tg 17%nat) d ].

(** The tags of the schema, in document order. *)
Definition schemaTags (i : nat) : byte :=
  nth i [ ASN1.SEQUENCE; ASN1.INTEGER; ASN1.SEQUENCE;
          ASN1.OBJECT_IDENTIFIER; ASN1.SEQUENCE; ASN1.INTEGER;
          ASN1.SEQUENCE; ASN1.OBJECT_IDENTIFIER; ASN1.INTEGER;
          ASN1.SEQUENCE; ASN1.OCTET_STRING; ASN1.OCTET_STRING;
          ASN1.OCTET_STRING; ASN1.INTEGER; ASN1.OCTET_STRING;
          ASN1.SEQUENCE; ASN1.INTEGER; ASN1.OCTET_STRING ] x00.

(** The tree [encodeKeyUsingPKCS8Format] assembles from the octets it
    puts into the leaves: the private-key block is a node with the
    ECPrivateKey sequence as its only child. *)
Definition assembled (h p a b g n d : ByteString.t) : ASN1.t :=
  ASN1.Constructed ASN1.SEQUENCE
    [ ASN1.Primitive ASN1.INTEGER [x00];
      ASN1.Constructed ASN1.SEQUENCE
        [ ASN1.Primitive ASN1.OBJECT_IDENTIFIER
            (ByteString.ofOID id_ecPublicKey);
          ASN1.Constructed ASN1.SEQUENCE
            [ ASN1.Primitive ASN1.INTEGER h;
              ASN1.Constructed ASN1.SEQUENCE
                [ ASN1.Primitive ASN1.OBJECT_IDENTIFIER
                    (ByteString.ofOID prime_field);
                  ASN1.Primitive ASN1.INTEGER p ];
              ASN1.Constructed ASN1.SEQUENCE
                [ ASN1.Primitive ASN1.OCTET_STRING a;
                  ASN1.Primitive ASN1.OCTET_STRING b ];
              ASN1.Primitive ASN1.OCTET_STRING g;
              ASN1.Primitive ASN1.INTEGER n ] ];
      ASN1.Constructed ASN1.OCTET_STRING [ shapedKey schemaTags d ] ].

(** The PRIVATE key holding the given components, filled the way
    [decodeKeyFromPKCS8Format] fills the key it returns. *)
Definition privateKeyWith (d h p a b gx gy n : ByteString.t) : Key.t :=
  let key := setType Key.new PRIVATE in
  let key := setComponent key ECC_D d in
  let key := setComponent key ECC_H h in
  let key := setComponent key ECC_P p in
  let key := setComponent key ECC_A a in
  let key := setComponent key ECC_B b in
  let key := setComponent key ECC_GX gx in
  let key := setComponent key ECC_GY gy in
  setComponent key ECC_N n.

(** The sign-padding rule as a relation between the stored octets [raw]
    and the value octets [v] of the INTEGER: the first octet of [raw]
    decides between a zero octet in front and no change. *)
Definition paddedAs (raw v : ByteString.t) : Prop :=
  exists b r, raw = b :: r /\
    ((128 <= Byte.to_N b)%N ->
       v = x00 :: raw /\ List.length v = S (List.length raw)) /\
    ((Byte.to_N b < 128)%N ->
       v = raw /\ List.length v = List.length raw).

Definition isLeaf (tg : byte) (node : ASN1.t) : bool :=
  match node with
  | ASN1.Primitive t _ => Byte.eqb t tg
  | ASN1.Constructed _ _ => false
  end.

(** The shape of section 4.2 of the specification, node by node: the
    number of children, the nesting and every tag of PrivateKeyInfo, and
    of the ECPrivateKey sequence held by the private-key block. *)
Definition matchesSchema (root : ASN1.t) : bool :=
  match root with
  | ASN1.Constructed t0
      [ version;
        ASN1.Constructed t2
          [ algId;
            ASN1.Constructed t4
              [ cofactor;
                ASN1.Constructed t6 [ fieldType; prime ];
                ASN1.Constructed t9 [ coeffA; coeffB ];
                base;
                order ] ];
        ASN1.Primitive t14 block ] =>
      Byte.eqb t0 ASN1.SEQUENCE && isLeaf ASN1.INTEGER version
      && Byte.eqb t2 ASN1.SEQUENCE && isLeaf ASN1.OBJECT_IDENTIFIER algId
      && Byte.eqb t4 ASN1.SEQUENCE && isLeaf ASN1.INTEGER cofactor
      && Byte.eqb t6 ASN1.SEQUENCE
      && isLeaf ASN1.OBJECT_IDENTIFIER fieldType
      && isLeaf ASN1.INTEGER prime
      && Byte.eqb t9 ASN1.SEQUENCE && isLeaf ASN1.OCTET_STRING coeffA
      && isLeaf ASN1.OCTET_STRING coeffB
      && isLeaf ASN1.OCTET_STRING base && isLeaf ASN1.INTEGER order
      && Byte.eqb t14 ASN1.OCTET_STRING
      && match ASN1.parse block with
         | Ok (ASN1.Constructed t15 [ version'; d ]) =>
             Byte.eqb t15 ASN1.SEQUENCE && isLeaf ASN1.INTEGER version'
             && isLeaf ASN1.OCTET_STRING d
         | _ => false
         end
  | _ => false
  end.

(** A key as the self-test holds it after key generation, with small
    numbers: H = 1 with a leading zero, P with its high bit set. *)
Definition sampleKey : Key.t :=
  privateKeyWith [xdd; xee] [x00; x01] [xff; x01] [x0a] [x0b]
    [x12; x34] [x56; x78] [x7f; x02].

(** The same key with the cofactor 0x80. *)
Definition sampleKeyH80 : Key.t :=
  privateKeyWith [xdd; xee] [x80] [xff; x01] [x0a] [x0b]
    [x12; x34] [x56; x78] [x7f; x02].

(** The same key with coordinates of one and two octets. *)
Definition sampleKeyUneven : Key.t :=
  privateKeyWith [xdd; xee] [x00; x01] [xff; x01] [x0a] [x0b]
    [x01] [x02; x03] [x7f; x02].

Definition publicKey : Key.t := setType Key.new PUBLIC.

(** Tags that are not the schema's: SET for every sequence, OCTET STRING
    and INTEGER exchanged, NULL for the object identifiers. *)
Definition otherTags (i : nat) : byte :=
  nth i [ x31; x04; x31; x05; x31; x04; x31; x05; x04;
          x31; x02; x02; x02; x04; x02; x31; x04; x02 ] x00.

(** [new ByteString(text, HEX)] of a literal. *)
Definition hex (text : string) : ByteString.t :=
  match ByteString.ofHex text with
  | Ok s => s
  | Throw _ => []
  end.

(** The encoding of [sampleKey]. *)
Definition sampleEncoding : ByteString.t :=
  Eval vm_compute in
    hex ("3041020100303106072A8648CE3D02013026020101300E06072A8648CE3D0101"
         ++ "020300FF01300604010A04010B0405041234567802027F02"
         ++ "040930070201010402DDEE").

(** An input of the schema's nesting under [otherTags]. *)
Definition mistaggedEncoding : ByteString.t :=
  Eval vm_compute in
    hex ("31320401003122050031" ++ "1E04010131060500" ++ "0402FF01"
         ++ "310602010A02010B" ++ "02050412345678" ++ "04027F02"
         ++ "02093107040101" ++ "0202DDEE").

(** Both keys hold the same octets under the component [c]. *)
Definition sameComponent (key key' : Key.t) (c : component) : Prop :=
  exists v, getComponent key c = Ok v /\ getComponent key' c = Ok v.


(** The number a byte sequence stands for, read as an unsigned big-endian
    integer. *)
Definition unsignedValue (s : ByteString.t) : N :=
  fold_left (fun acc b => (256 * acc + Byte.to_N b)%N) s 0%N.

(** The number the value octets of a DER INTEGER stand for: big-endian
    two's complement, negative when the first octet has its high bit set. *)
Definition signedValue (s : ByteString.t) : Z :=
  match s with
  | [] => 0
  | b :: _ =>
      if N.testbit (Byte.to_N b) 7
      then Z.of_N (unsignedValue s) - 256 ^ Z.of_nat (List.length s)
      else Z.of_N (unsignedValue s)
  end.

(** The components [encodeKeyUsingPKCS8Format] reads and
    [decodeKeyFromPKCS8Format] writes. *)
Definition codecComponents : list component :=
  [ECC_D; ECC_H; ECC_P; ECC_A; ECC_B; ECC_GX; ECC_GY; ECC_N].

(** Trees of the nesting of PrivateKeyInfo with further children after
    the ones of the schema, at the end of every sequence. *)
Definition shapedLoose (tg : nat -> byte)
    (oid1 h oid2 p a b g n block : ByteString.t)
    (e0 e1 e2 e3 e4 : list ASN1.t) : ASN1.t :=
  ASN1.Constructed (tg 0%nat)
    ( ASN1.Primitive (tg 1%nat) [x00]
      :: ASN1.Constructed (tg 2%nat)
           ( ASN1.Primitive (tg 3%nat) oid1
             :: ASN1.Constructed (tg 4%nat)
                  ( ASN1.Primitive (tg 5%nat) h
                    :: ASN1.Constructed (tg 6%nat)
                         ( ASN1.Primitive (tg 7%nat) oid2
                           :: ASN1.Primitive (tg 8%nat) p :: e3 )
                    :: ASN1.Constructed (tg 9%nat)
                         ( ASN1.Primitive (tg 10%nat) a
                           :: ASN1.Primitive (tg 11%nat) b :: e4 )
                    :: ASN1.Primitive (tg 12%nat) g
                    :: ASN1.Primitive (tg 13%nat) n :: e2 )
             :: e1 )
      :: ASN1.Primitive (tg 14%nat) block :: e0 ).

Definition shapedKeyLoose (tg : nat -> byte) (d : ByteString.t)
    (e5 : list ASN1.t) : ASN1.t :=
  ASN1.Constructed (tg 15%nat)
    ( ASN1.Primitive (tg 16%nat) [x01]
      :: ASN1.Primitive (tg 17%nat) d :: e5 ).

(** The value field of the node reached by [path]. *)
Definition valueAt (root : ASN1.t) (path : list Z) : result ByteString.t :=
  node <- nodeAt root path ;;
  ASN1.value node.

(** The child positions [decodeKeyFromPKCS8Format] visits in the tree of
    its input: the private-key block, H, P, A, B, the base point and N. *)
Definition visitedPositions : list (list Z) :=
  [[2]; [1; 1; 0]; [1; 1; 1; 1]; [1; 1; 2; 0]; [1; 1; 2; 1];
   [1; 1; 3]; [1; 1; 4]].

(** A PRIVATE key that holds nothing yet. *)
Definition emptyPrivateKey : Key.t := setType Key.new PRIVATE.

(** [sampleKey] with P of no octets. *)
Definition sampleKeyEmptyP : Key.t :=
  privateKeyWith [xdd; xee] [x00; x01] [] [x0a] [x0b]
    [x12; x34] [x56; x78] [x7f; x02].

(** [mistaggedEncoding] without its last child of the domain parameters,
    the order N. *)
Definition truncatedEncoding : ByteString.t :=
  Eval vm_compute in
    hex ("312E040100311E050031" ++ "1A04010131060500" ++ "0402FF01"
         ++ "310602010A02010B" ++ "02050412345678"
         ++ "02093107040101" ++ "0202DDEE").

(** A public key as key generation leaves it beside [sampleKey]. *)
Definition samplePublicKey : Key.t :=
  let key := setType Key.new PUBLIC in
  let key := setComponent key ECC_A [x0a] in
  setComponent key ECC_B [x0b].

(* ================================================================== *)
(** * Properties *)

(** ** The exception monad *)

Lemma bind_Ok {A B : Type} (r : result A) (k : A -> result B) (b : B) :
  bind r k = Ok b -> exists a, r = Ok a /\ k a = Ok b.
Proof.
  destruct r as [a|e]; simpl; intros H; [exists a; auto | discriminate].
Qed.

Ltac inv_bind H :=
  let a := fresh "v" in
  let Ha := fresh "E" in
  apply bind_Ok in H; destruct H as [a [Ha H]].

Ltac inv_binds :=
  repeat match goal with
         | H : bind _ _ = Ok _ |- _ => inv_bind H
         end.

(** ** Hexadecimal text *)

Lemma hex_digits (b : byte) :
  ByteString.hexValue (ByteString.hexChar (Byte.to_N b / 16))
    = Some (Byte.to_N b / 16)%N /\
  ByteString.hexValue (ByteString.hexChar (Byte.to_N b mod 16))
    = Some (Byte.to_N b mod 16)%N /\
  byteOf (16 * (Byte.to_N b / 16) + Byte.to_N b mod 16) = b.
Proof. destruct b; vm_compute; auto. Qed.

Lemma ofHex_toString (s : ByteString.t) :
  ByteString.ofHex (ByteString.toString s) = Ok s.
Proof.
  induction s as [|b r IH]; [reflexivity|].
  cbn [ByteString.toString ByteString.ofHex].
  destruct (hex_digits b) as [Hh [Hl Hb]].
  rewrite Hh, Hl, IH; cbn [bind]. now rewrite Hb.
Qed.

Lemma encodeUncompressedECPoint_eq (x y : ByteString.t) :
  encodeUncompressedECPoint x y = Ok (x04 :: x ++ y).
Proof.
  unfold encodeUncompressedECPoint.
  rewrite !ofHex_toString. reflexivity.
Qed.

(** ** Numbers handed to the host *)

Lemma toInteger_half (z : Z) :
  0 <= z -> toInteger (inject_Z z / 2) = z / 2.
Proof.
  intros Hz. unfold toInteger.
  assert (Hq : (inject_Z z / 2 == z # 2)%Q).
  { cbv [Qdiv Qmult Qinv Qeq inject_Z Qnum Qden]. cbn [Pos.mul]. lia. }
  assert (Hle : Qle_bool 0 (inject_Z z / 2) = true).
  { apply Qle_bool_iff. rewrite Hq. cbv [Qle Qnum Qden]. lia. }
  rewrite Hle, Hq. reflexivity.
Qed.

Lemma toInteger_succ_half (z : Z) :
  0 <= z -> toInteger (1 + inject_Z z / 2) = 1 + z / 2.
Proof.
  intros Hz. unfold toInteger.
  assert (Hq : (1 + inject_Z z / 2 == (2 + z) # 2)%Q).
  { cbv [Qdiv Qmult Qinv Qplus Qeq inject_Z Qnum Qden]. cbn [Pos.mul]. lia. }
  assert (Hle : Qle_bool 0 (1 + inject_Z z / 2) = true).
  { apply Qle_bool_iff. rewrite Hq. cbv [Qle Qnum Qden]. lia. }
  rewrite Hle, Hq. unfold Qfloor.
  replace (2 + z) with (z + 1 * 2) by lia.
  rewrite Z.div_add by lia. lia.
Qed.

Lemma toInteger_one : toInteger 1 = 1.
Proof. reflexivity. Qed.

(** ** Point codec *)

(** On any non-empty input the decoder returns two slices of
    [(length - 1) / 2] octets, the second starting where the first ends. *)
Lemma decodeUncompressedECPoint_cons (m : byte) (r : ByteString.t) :
  let h := Z.to_nat (Z.of_nat (List.length r) / 2) in
  decodeUncompressedECPoint (m :: r)
  = Ok {| x := firstn h r; y := firstn h (skipn h r) |}.
Proof.
  intros h. unfold decodeUncompressedECPoint.
  assert (Hlen : ByteString.length (m :: r) - 1 = Z.of_nat (List.length r)).
  { unfold ByteString.length; cbn [List.length]. lia. }
  rewrite Hlen. set (z := Z.of_nat (List.length r)).
  assert (Hz : 0 <= z) by (unfold z; lia).
  assert (Hh : 0 <= z / 2 /\ 2 * (z / 2) <= z).
  { split; [apply Z.div_pos; lia | apply Z.mul_div_le; lia]. }
  unfold ByteString.bytes.
  rewrite toInteger_one, (toInteger_half z Hz), (toInteger_succ_half z Hz).
  assert (HL : ByteString.length (m :: r) = 1 + z).
  { unfold ByteString.length, z; cbn [List.length]. lia. }
  rewrite HL.
  replace ((0 <=? 1) && (0 <=? z / 2) && (1 + z / 2 <=? 1 + z)) with true
    by (symmetry; rewrite !andb_true_iff, !Z.leb_le; lia).
  replace ((0 <=? 1 + z / 2) && (0 <=? z / 2)
           && (1 + z / 2 + z / 2 <=? 1 + z)) with true
    by (symmetry; rewrite !andb_true_iff, !Z.leb_le; lia).
  cbn [bind].
  replace (Z.to_nat (1 + z / 2)) with (S h)
    by (unfold h; fold z; rewrite Z2Nat.inj_add by lia; reflexivity).
  change (Z.to_nat 1) with 1%nat. cbn [skipn]. reflexivity.
Qed.

Lemma decodeUncompressedECPoint_halves (m : byte) (xs ys : ByteString.t) :
  List.length xs = List.length ys ->
  decodeUncompressedECPoint (m :: xs ++ ys) = Ok {| x := xs; y := ys |}.
Proof.
  intros Hxy. rewrite decodeUncompressedECPoint_cons.
  assert (Hh : Z.to_nat (Z.of_nat (List.length (xs ++ ys)) / 2)
               = List.length xs).
  { rewrite length_app, <- Hxy.
    replace (Z.of_nat (List.length xs + List.length xs))
      with (Z.of_nat (List.length xs) * 2) by lia.
    rewrite Z.div_mul by lia. lia. }
  rewrite Hh.
  rewrite firstn_app, Nat.sub_diag, firstn_all, firstn_O, app_nil_r.
  rewrite skipn_app, Nat.sub_diag, skipn_all, skipn_O. cbn [app].
  rewrite Hxy, firstn_all. reflexivity.
Qed.

(** ** Stripping of leading zeros *)

Lemma byteAt_middle (pre : ByteString.t) (b : byte) (suf : ByteString.t) :
  ByteString.byteAt (pre ++ b :: suf) (ByteString.length pre)
  = Ok (Z.of_N (Byte.to_N b)).
Proof.
  unfold ByteString.byteAt, ByteString.length.
  rewrite length_app; cbn [List.length].
  replace ((0 <=? Z.of_nat (List.length pre))
           && (Z.of_nat (List.length pre)
               <? Z.of_nat (List.length pre + S (List.length suf))))
    with true by (symmetry; rewrite andb_true_iff, Z.leb_le, Z.ltb_lt; lia).
  rewrite Nat2Z.id, nth_error_app2, Nat.sub_diag by lia. reflexivity.
Qed.

Lemma byte_zero_iff (b : byte) :
  (Z.of_N (Byte.to_N b) =? 0) = Byte.eqb b x00.
Proof. destruct b; reflexivity. Qed.

Lemma stripLoop_spec (suf pre : ByteString.t) (fuel : nat) :
  (List.length suf <= fuel)%nat ->
  stripLoop fuel (pre ++ suf) (ByteString.length pre)
  = Ok (ByteString.length (pre ++ suf) - ByteString.length (dropZeros suf)).
Proof.
  revert pre fuel.
  induction suf as [|b r IH]; intros pre fuel Hfuel.
  - rewrite app_nil_r. cbn [dropZeros].
    replace (ByteString.length pre - ByteString.length [])
      with (ByteString.length pre) by (unfold ByteString.length; simpl; lia).
    destruct fuel; cbn [stripLoop]; [reflexivity|].
    now rewrite Z.ltb_irrefl.
  - destruct fuel as [|f]; [cbn [List.length] in Hfuel; lia|].
    cbn [stripLoop].
    replace (ByteString.length pre <? ByteString.length (pre ++ b :: r))
      with true
      by (symmetry; apply Z.ltb_lt; unfold ByteString.length;
          rewrite length_app; cbn [List.length]; lia).
    rewrite byteAt_middle. cbn [bind dropZeros].
    rewrite byte_zero_iff.
    destruct (Byte.eqb b x00).
    + replace (ByteString.length pre + 1)
        with (ByteString.length (pre ++ [b]))
        by (unfold ByteString.length; rewrite length_app; simpl; lia).
      replace (pre ++ b :: r) with ((pre ++ [b]) ++ r)
        by (now rewrite <- app_assoc).
      apply IH. cbn [List.length] in Hfuel. lia.
    + f_equal. unfold ByteString.length.
      rewrite length_app. lia.
Qed.

Lemma stripLeadingZeros_eq (value : ByteString.t) :
  stripLeadingZeros value = Ok (dropZeros value).
Proof.
  unfold stripLeadingZeros.
  pose proof (stripLoop_spec value [] (List.length value) (le_n _)) as H.
  cbn [app] in H. change (ByteString.length []) with 0 in H.
  rewrite H. cbn [bind].
  assert (Hd : exists zs, value = zs ++ dropZeros value).
  { clear H. induction value as [|b r [zs Hzs]]; [now exists []|].
    cbn [dropZeros]. destruct (Byte.eqb b x00).
    - exists (b :: zs). cbn [app]. now f_equal.
    - now exists []. }
  destruct Hd as [zs Hzs].
  unfold ByteString.right, ByteString.length.
  set (d := dropZeros value) in *.
  assert (Hl : List.length value = (List.length zs + List.length d)%nat)
    by (rewrite Hzs at 1; apply length_app).
  replace ((0 <=? Z.of_nat (List.length value)
                - (Z.of_nat (List.length value) - Z.of_nat (List.length d)))
           && (Z.of_nat (List.length value)
                - (Z.of_nat (List.length value) - Z.of_nat (List.length d))
               <=? Z.of_nat (List.length value)))
    with true by (symmetry; rewrite andb_true_iff, !Z.leb_le; lia).
  f_equal.
  replace (Z.to_nat _) with (List.length zs) by lia.
  rewrite Hzs at 1.
  now rewrite skipn_app, Nat.sub_diag, skipn_all, skipn_O.
Qed.

(** ** Length fields *)

Ltac lia_div := zify; Z.to_euclidean_division_equations; lia.

Lemma to_N_byteOf (n : N) : Byte.to_N (byteOf n) = (n mod 256)%N.
Proof.
  unfold byteOf. destruct (Byte.of_N (n mod 256)) eqn:E.
  - now apply Byte.to_of_N.
  - apply Byte.of_N_None_iff in E.
    pose proof (N.mod_upper_bound n 256). lia.
Qed.

Lemma parseLength_short (b : byte) (rest : list byte) :
  (Byte.to_N b < 128)%N ->
  ASN1.parseLength (b :: rest) = Some (N.to_nat (Byte.to_N b), rest).
Proof.
  intros Hb. cbv beta iota zeta delta [ASN1.parseLength].
  apply N.ltb_lt in Hb. now rewrite Hb.
Qed.

Lemma parseLength_long (k : nat) (b : byte) (ds rest : list byte) :
  Byte.to_N b = (128 + N.of_nat k)%N ->
  (1 <= k <= 4)%nat ->
  List.length ds = k ->
  ASN1.parseLength (b :: ds ++ rest)
  = Some (N.to_nat (ASN1.bigEndian 0 ds), rest).
Proof.
  intros Hb Hk Hds. cbv beta iota zeta delta [ASN1.parseLength].
  rewrite Hb.
  replace (128 + N.of_nat k <? 128)%N with false
    by (symmetry; apply N.ltb_ge; lia).
  replace (N.to_nat (128 + N.of_nat k - 128)) with k by lia.
  replace ((1 <=? k) && (k <=? 4) && (k <=? List.length (ds ++ rest)))%nat
    with true
    by (symmetry; rewrite !andb_true_iff, !Nat.leb_le, length_app; lia).
  rewrite <- Hds.
  rewrite firstn_app, Nat.sub_diag, firstn_all, firstn_O, app_nil_r.
  now rewrite skipn_app, Nat.sub_diag, skipn_all, skipn_O.
Qed.

Lemma parseLength_encodeLength (len : nat) (l rest : list byte) :
  ASN1.encodeLength len = Ok l ->
  ASN1.parseLength (l ++ rest) = Some (len, rest).
Proof.
  unfold ASN1.encodeLength.
  assert (Hn : N.to_nat (N.of_nat len) = len) by lia.
  revert Hn. generalize (N.of_nat len). intros n Hn.
  destruct (N.ltb_spec n 128) as [H1|H1].
  { intros [= <-]. cbn [app].
    rewrite parseLength_short; rewrite to_N_byteOf.
    - rewrite N.mod_small by lia. now rewrite Hn.
    - rewrite N.mod_small by lia. lia. }
  destruct (N.ltb_spec n 256) as [H2|H2].
  { intros [= <-].
    change ([x81; byteOf n] ++ rest) with (x81 :: [byteOf n] ++ rest).
    rewrite (parseLength_long 1) by (reflexivity || lia).
    cbn [ASN1.bigEndian]. rewrite !to_N_byteOf.
    do 2 f_equal. rewrite <- Hn. f_equal. lia_div. }
  destruct (N.ltb_spec n 65536) as [H3|H3].
  { intros [= <-].
    change ([x82; byteOf (n / 256); byteOf n] ++ rest)
      with (x82 :: [byteOf (n / 256); byteOf n] ++ rest).
    rewrite (parseLength_long 2) by (reflexivity || lia).
    cbn [ASN1.bigEndian]. rewrite !to_N_byteOf.
    do 2 f_equal. rewrite <- Hn. f_equal. lia_div. }
  destruct (N.ltb_spec n 16777216) as [H4|H4].
  { intros [= <-].
    change ([x83; byteOf (n / 65536); byteOf (n / 256); byteOf n] ++ rest)
      with (x83 :: [byteOf (n / 65536); byteOf (n / 256); byteOf n] ++ rest).
    rewrite (parseLength_long 3) by (reflexivity || lia).
    cbn [ASN1.bigEndian]. rewrite !to_N_byteOf.
    do 2 f_equal. rewrite <- Hn. f_equal. lia_div. }
  destruct (N.ltb_spec n 4294967296) as [H5|H5]; [|discriminate].
  intros [= <-].
  change ([x84; byteOf (n / 16777216); byteOf (n / 65536);
           byteOf (n / 256); byteOf n] ++ rest)
    with (x84 :: [byteOf (n / 16777216); byteOf (n / 65536);
                  byteOf (n / 256); byteOf n] ++ rest).
  rewrite (parseLength_long 4) by (reflexivity || lia).
  cbn [ASN1.bigEndian]. rewrite !to_N_byteOf.
  do 2 f_equal. rewrite <- Hn. f_equal. lia_div.
Qed.

(** ** Encoding and parsing of trees *)

Section TreeInduction.

Variable P : ASN1.t -> Prop.
Hypothesis HPrimitive : forall tg v, P (ASN1.Primitive tg v).
Hypothesis HConstructed :
  forall tg cs, Forall P cs -> P (ASN1.Constructed tg cs).

Lemma tree_ind (node : ASN1.t) : P node.
Proof.
  revert node. fix IH 1. intros [tg v|tg cs].
  - apply HPrimitive.
  - apply HConstructed.
    induction cs as [|c r IHr]; constructor; [apply IH | exact IHr].
Qed.

End TreeInduction.

Lemma getBytes_Constructed (tg : byte) (cs : list ASN1.t) :
  ASN1.getBytes (ASN1.Constructed tg cs)
  = (body <- ASN1.content cs ;;
     l <- ASN1.encodeLength (List.length body) ;;
     Ok (tg :: l ++ body)).
Proof. reflexivity. Qed.

(** A node with content, whatever its tag, is encoded like the leaf
    holding the encodings of its children as value. *)
Lemma getBytes_wrapper (tg : byte) (cs : list ASN1.t) :
  ASN1.getBytes (ASN1.Constructed tg cs)
  = (body <- ASN1.content cs ;; ASN1.getBytes (ASN1.Primitive tg body)).
Proof. reflexivity. Qed.

Lemma getBytes_cons (node : ASN1.t) (enc : ByteString.t) :
  ASN1.getBytes node = Ok enc -> exists e, enc = ASN1.tag node :: e.
Proof.
  destruct node as [tg v|tg cs].
  - cbn [ASN1.getBytes]. intros H. inv_bind H. injection H as <-. eauto.
  - rewrite getBytes_Constructed. intros H. inv_bind H. inv_bind H.
    injection H as <-. eauto.
Qed.

Lemma parseMany_content (p : list byte -> option (ASN1.t * list byte))
    (cs : list ASN1.t) :
  forall (body : ByteString.t) (n : nat),
    ASN1.content cs = Ok body ->
    (List.length body <= n)%nat ->
    (forall c, In c cs -> forall e, ASN1.getBytes c = Ok e ->
       forall rest, p (e ++ rest) = Some (c, rest)) ->
    ASN1.parseMany p n body = Some cs.
Proof.
  induction cs as [|c r IH]; intros body n Hbody Hn Hp.
  - injection Hbody as <-. destruct n; reflexivity.
  - cbn [ASN1.content] in Hbody.
    inv_bind Hbody. rename v into e. inv_bind Hbody. rename v into es.
    injection Hbody as <-.
    destruct (getBytes_cons _ _ E) as [e' ->].
    rewrite length_app in Hn; cbn [List.length] in Hn.
    destruct n as [|n']; [lia|].
    cbn [app ASN1.parseMany].
    change (ASN1.tag c :: e' ++ es) with ((ASN1.tag c :: e') ++ es).
    rewrite (Hp c (or_introl eq_refl) _ E es).
    rewrite (IH es n' E0); [reflexivity | lia |].
    intros c' Hc'. apply Hp. now right.
Qed.

Lemma depth_child (c : ASN1.t) (cs : list ASN1.t) :
  In c cs -> (depth c <= list_max (map depth cs))%nat.
Proof.
  induction cs as [|c' r IH]; intros Hin; [contradiction|].
  cbn [map list_max fold_right]. destruct Hin as [->|Hin].
  - apply Nat.le_max_l.
  - etransitivity; [apply IH, Hin | apply Nat.le_max_r].
Qed.

(** Parsing what the encoder wrote gives the tree back and leaves the
    octets that follow, for every amount of fuel of at least the depth. *)
Lemma parseTLV_getBytes (node : ASN1.t) :
  canonical node = true ->
  forall enc, ASN1.getBytes node = Ok enc ->
  forall fuel rest, (depth node <= fuel)%nat ->
  ASN1.parseTLV fuel (enc ++ rest) = Some (node, rest).
Proof.
  induction node as [tg v|tg cs IH] using tree_ind;
    intros Hcan enc Henc fuel rest Hfuel.
  - cbn [canonical] in Hcan. apply andb_true_iff in Hcan as [Hc Hl].
    apply negb_true_iff in Hc, Hl.
    cbn [ASN1.getBytes] in Henc. inv_bind Henc. rename v0 into l.
    injection Henc as <-.
    destruct fuel as [|f]; [cbn [depth] in Hfuel; lia|].
    cbn [app ASN1.parseTLV]. rewrite Hl, <- app_assoc.
    rewrite (parseLength_encodeLength _ _ _ E).
    replace (List.length (v ++ rest) <? List.length v)%nat with false
      by (symmetry; apply Nat.ltb_ge; rewrite length_app; lia).
    rewrite Hc.
    rewrite firstn_app, Nat.sub_diag, firstn_all, firstn_O, app_nil_r.
    now rewrite skipn_app, Nat.sub_diag, skipn_all, skipn_O.
  - cbn [canonical] in Hcan. apply andb_true_iff in Hcan as [Hcan Hcs].
    apply andb_true_iff in Hcan as [Hc Hl]. apply negb_true_iff in Hl.
    rewrite getBytes_Constructed in Henc.
    inv_bind Henc. rename v into body. inv_bind Henc. rename v into l.
    injection Henc as <-.
    destruct fuel as [|f]; [cbn [depth] in Hfuel; lia|].
    cbn [depth] in Hfuel.
    cbn [app ASN1.parseTLV]. rewrite Hl, <- app_assoc.
    rewrite (parseLength_encodeLength _ _ _ E0).
    replace (List.length (body ++ rest) <? List.length body)%nat with false
      by (symmetry; apply Nat.ltb_ge; rewrite length_app; lia).
    rewrite Hc.
    rewrite firstn_app, Nat.sub_diag, firstn_all, firstn_O, app_nil_r.
    rewrite skipn_app, Nat.sub_diag, skipn_all, skipn_O. cbn [app].
    rewrite (parseMany_content (ASN1.parseTLV f) cs body); auto.
    intros c Hin e He rest'.
    rewrite Forall_forall in IH. rewrite forallb_forall in Hcs.
    apply IH; auto.
    pose proof (depth_child c cs Hin). lia.
Qed.

Lemma depth_le_length (node : ASN1.t) :
  forall enc, ASN1.getBytes node = Ok enc ->
  (depth node <= List.length enc)%nat.
Proof.
  induction node as [tg v|tg cs IH] using tree_ind; intros enc Henc.
  - destruct (getBytes_cons _ _ Henc) as [e ->].
    cbn [depth List.length]. lia.
  - rewrite getBytes_Constructed in Henc.
    inv_bind Henc. rename v into body. inv_bind Henc.
    injection Henc as <-.
    cbn [depth List.length]. rewrite length_app.
    enough (list_max (map depth cs) <= List.length body)%nat by lia.
    clear E0. revert body E.
    induction cs as [|c r IHr]; intros body Hbody.
    + cbn. lia.
    + cbn [ASN1.content] in Hbody.
      inv_bind Hbody. inv_bind Hbody. injection Hbody as <-.
      apply Forall_cons_iff in IH as [Hc Hr].
      cbn [map list_max fold_right]. rewrite length_app.
      specialize (Hc _ E). specialize (IHr Hr _ E0).
      change (fold_right Nat.max 0%nat (map depth r))
        with (list_max (map depth r)). lia.
Qed.

(** [new ASN1(node.getBytes())] is [node], for every tree the parser can
    return. *)
Lemma parse_getBytes (node : ASN1.t) (enc : ByteString.t) :
  canonical node = true ->
  ASN1.getBytes node = Ok enc ->
  ASN1.parse enc = Ok node.
Proof.
  intros Hcan Henc. unfold ASN1.parse.
  pose proof (parseTLV_getBytes node Hcan enc Henc (List.length enc) []
                (depth_le_length node enc Henc)) as H.
  rewrite app_nil_r in H. now rewrite H.
Qed.

(** ** Fuel of the parser *)

Lemma parseLength_rest (bs r : list byte) (len : nat) :
  ASN1.parseLength bs = Some (len, r) ->
  (List.length r < List.length bs)%nat.
Proof.
  destruct bs as [|b r0]; [discriminate|].
  cbv beta iota zeta delta [ASN1.parseLength].
  destruct (Byte.to_N b <? 128)%N.
  - intros [= _ <-]. cbn [List.length]. lia.
  - destruct ((1 <=? N.to_nat (Byte.to_N b - 128))
              && (N.to_nat (Byte.to_N b - 128) <=? 4)
              && (N.to_nat (Byte.to_N b - 128) <=? List.length r0))%nat;
      [|discriminate].
    intros [= _ <-]. rewrite length_skipn. cbn [List.length]. lia.
Qed.

Lemma parseTLV_rest (fuel : nat) (bs rest : list byte) (node : ASN1.t) :
  ASN1.parseTLV fuel bs = Some (node, rest) ->
  (List.length rest < List.length bs)%nat.
Proof.
  destruct fuel as [|f]; [discriminate|].
  destruct bs as [|tg r]; [discriminate|].
  cbn [ASN1.parseTLV].
  destruct (ASN1.isLongTag tg); [discriminate|].
  destruct (ASN1.parseLength r) as [[len r']|] eqn:EL; [|discriminate].
  apply parseLength_rest in EL.
  destruct (List.length r' <? len)%nat; [discriminate|].
  assert (Hrest : (List.length (skipn len r') < List.length (tg :: r))%nat)
    by (rewrite length_skipn; cbn [List.length]; lia).
  destruct (ASN1.isConstructed tg).
  - destruct (ASN1.parseMany (ASN1.parseTLV f)
                (List.length (firstn len r')) (firstn len r'));
      [|discriminate].
    now intros [= _ <-].
  - now intros [= _ <-].
Qed.

(** Two parsers that agree on all inputs no longer than [bs], and never
    return more than they were given, read the same children from [bs]. *)
Lemma parseMany_ext (p q : list byte -> option (ASN1.t * list byte))
    (n : nat) :
  forall bs : list byte,
    (forall bs', (List.length bs' <= List.length bs)%nat -> p bs' = q bs') ->
    (forall bs' c r, p bs' = Some (c, r) ->
       (List.length r < List.length bs')%nat) ->
    ASN1.parseMany p n bs = ASN1.parseMany q n bs.
Proof.
  induction n as [|n IH]; intros bs Hpq Hp.
  - destruct bs; reflexivity.
  - destruct bs as [|b r]; [reflexivity|].
    cbn [ASN1.parseMany]. rewrite <- (Hpq (b :: r) (le_n _)).
    destruct (p (b :: r)) as [[c r']|] eqn:E; [|reflexivity].
    apply Hp in E.
    rewrite (IH r'); [reflexivity | | exact Hp].
    intros bs' Hbs'. apply Hpq. lia.
Qed.

(** A bound on the number of children beyond the length of the value
    field changes nothing. *)
Lemma parseMany_count (p : list byte -> option (ASN1.t * list byte))
    (n : nat) :
  forall (n' : nat) (bs : list byte),
    (forall bs' c r, p bs' = Some (c, r) ->
       (List.length r < List.length bs')%nat) ->
    (List.length bs <= n)%nat -> (List.length bs <= n')%nat ->
    ASN1.parseMany p n bs = ASN1.parseMany p n' bs.
Proof.
  induction n as [|n IH]; intros n' bs Hp Hn Hn'.
  - destruct bs; [|cbn [List.length] in Hn; lia].
    destruct n'; reflexivity.
  - destruct bs as [|b r]; [destruct n'; reflexivity|].
    destruct n' as [|n']; [cbn [List.length] in Hn'; lia|].
    cbn [ASN1.parseMany].
    destruct (p (b :: r)) as [[c r']|] eqn:E; [|reflexivity].
    apply Hp in E. cbn [List.length] in E, Hn, Hn'.
    rewrite (IH n' r'); [reflexivity | exact Hp | lia | lia].
Qed.

(** Fuel beyond the length of the input changes nothing. *)
Lemma parseTLV_fuel (f : nat) :
  forall (f' : nat) (bs : list byte),
    (List.length bs <= f)%nat -> (List.length bs <= f')%nat ->
    ASN1.parseTLV f bs = ASN1.parseTLV f' bs.
Proof.
  induction f as [|f IH]; intros f' bs Hf Hf'.
  - destruct bs; [|cbn [List.length] in Hf; lia].
    destruct f'; reflexivity.
  - destruct bs as [|tg r]; [destruct f'; reflexivity|].
    destruct f' as [|f']; [cbn [List.length] in Hf'; lia|].
    cbn [ASN1.parseTLV].
    destruct (ASN1.isLongTag tg); [reflexivity|].
    destruct (ASN1.parseLength r) as [[len r']|] eqn:EL; [|reflexivity].
    apply parseLength_rest in EL.
    destruct (List.length r' <? len)%nat; [reflexivity|].
    destruct (ASN1.isConstructed tg); [|reflexivity].
    cbn [List.length] in Hf, Hf'.
    pose proof (length_firstn len r') as Hv.
    rewrite (parseMany_ext (ASN1.parseTLV f) (ASN1.parseTLV f'));
      [reflexivity | | ].
    + intros bs' Hbs'. apply IH; lia.
    + intros bs' c rest. apply parseTLV_rest.
Qed.

(** [new ASN1(encoded)] never fails for lack of fuel. *)
Lemma parse_fuel (encoded : ByteString.t) (f : nat) :
  (List.length encoded <= f)%nat ->
  ASN1.parseTLV f encoded
  = ASN1.parseTLV (List.length encoded) encoded.
Proof. intros Hf. now apply parseTLV_fuel. Qed.

(** ** The tree assembled by the encoder *)

Lemma highBit_ge (b : byte) :
  N.testbit (Byte.to_N b) 7 = (128 <=? Z.of_N (Byte.to_N b)).
Proof. destruct b; reflexivity. Qed.

Lemma byteAt_head (b : byte) (r : ByteString.t) :
  ByteString.byteAt (b :: r) 0 = Ok (Z.of_N (Byte.to_N b)).
Proof. exact (byteAt_middle [] b r). Qed.

Lemma byteAt_nil (i : Z) : ByteString.byteAt [] i = Throw INVALID_INDEX.
Proof.
  unfold ByteString.byteAt. change (ByteString.length []) with 0.
  destruct (0 <=? i) eqn:E1, (i <? 0) eqn:E2; try reflexivity.
  apply Z.leb_le in E1. apply Z.ltb_lt in E2. lia.
Qed.

Lemma signPadded_cons (b : byte) (r : ByteString.t) :
  signPadded (b :: r)
  = if 128 <=? Z.of_N (Byte.to_N b) then x00 :: b :: r else b :: r.
Proof. cbn [signPadded]. now rewrite highBit_ge. Qed.

Ltac read_component Hrun c x :=
  let E := fresh "E" x in
  destruct (components _ c) as [x|] eqn:E;
  cbn [bind] in Hrun; [|discriminate Hrun].

(** What a successful run of the assembling part says about the key. *)
Lemma privateKeyInfo_Ok (key : Key.t) (tree : ASN1.t) :
  privateKeyInfo key = Ok tree ->
  exists h p a b gx gy n d,
    hasType key PRIVATE = true /\
    components key ECC_H = Some h /\ components key ECC_P = Some p /\
    components key ECC_A = Some a /\ components key ECC_B = Some b /\
    components key ECC_GX = Some gx /\ components key ECC_GY = Some gy /\
    components key ECC_N = Some n /\ components key ECC_D = Some d /\
    p <> [] /\ n <> [] /\
    tree = assembled (dropZeros h) (signPadded p) a b (x04 :: gx ++ gy)
             (signPadded n) d.
Proof.
  unfold privateKeyInfo. intros H.
  destruct (hasType key PRIVATE) eqn:Ht; [|discriminate H].
  change (ByteString.ofHex "00") with (Ok [x00]) in H.
  change (ByteString.ofHex "01") with (Ok [x01]) in H.
  unfold getComponent, ASN1.new, ASN1.newValue, ByteString.concat in H.
  cbn [assert bind ASN1.add app] in H.
  read_component H ECC_H h.
  rewrite stripLeadingZeros_eq in H. cbn [bind ASN1.add app] in H.
  read_component H ECC_P p.
  destruct p as [|p0 p']; [rewrite byteAt_nil in H; discriminate H|].
  rewrite byteAt_head in H. cbn [bind] in H.
  destruct (128 <=? Z.of_N (Byte.to_N p0)) eqn:Hp0;
    cbn [bind ASN1.add app] in H.
  all: read_component H ECC_A a; read_component H ECC_B b.
  all: read_component H ECC_GX gx; read_component H ECC_GY gy.
  all: rewrite encodeUncompressedECPoint_eq in H; cbn [bind] in H.
  all: read_component H ECC_N n.
  all: destruct n as [|n0 n']; [rewrite byteAt_nil in H; discriminate H|].
  all: rewrite byteAt_head in H; cbn [bind] in H.
  all: destruct (128 <=? Z.of_N (Byte.to_N n0)) eqn:Hn0;
    cbn [bind ASN1.add app] in H.
  all: read_component H ECC_D d.
  all: exists h, (p0 :: p'), a, b, gx, gy, (n0 :: n'), d.
  all: rewrite !signPadded_cons, Hp0, Hn0.
  all: repeat (split; [first [reflexivity | discriminate]|]).
  all: injection H as <-; reflexivity.
Qed.

Lemma privateKeyInfo_present (key : Key.t)
    (h p a b gx gy n d : ByteString.t) :
  hasType key PRIVATE = true ->
  components key ECC_H = Some h -> components key ECC_P = Some p ->
  components key ECC_A = Some a -> components key ECC_B = Some b ->
  components key ECC_GX = Some gx -> components key ECC_GY = Some gy ->
  components key ECC_N = Some n -> components key ECC_D = Some d ->
  p <> [] -> n <> [] ->
  privateKeyInfo key
  = Ok (assembled (dropZeros h) (signPadded p) a b (x04 :: gx ++ gy)
          (signPadded n) d).
Proof.
  intros Ht EH EP EA EB EGX EGY EN ED Hp Hn.
  destruct p as [|p0 p']; [contradiction|].
  destruct n as [|n0 n']; [contradiction|].
  unfold privateKeyInfo, getComponent.
  rewrite Ht, EH, EP, EA, EB, EGX, EGY, EN, ED.
  change (ByteString.ofHex "00") with (Ok [x00]).
  change (ByteString.ofHex "01") with (Ok [x01]).
  cbn [assert bind].
  rewrite stripLeadingZeros_eq, encodeUncompressedECPoint_eq, !byteAt_head.
  cbn [bind ASN1.add ASN1.new ASN1.newValue app].
  rewrite !signPadded_cons.
  destruct (128 <=? Z.of_N (Byte.to_N p0)),
           (128 <=? Z.of_N (Byte.to_N n0)); reflexivity.
Qed.

(** The private-key block of the assembled tree is written as a leaf
    holding the encoding of the ECPrivateKey sequence. *)
Lemma getBytes_assembled (h p a b g n d out : ByteString.t) :
  ASN1.getBytes (assembled h p a b g n d) = Ok out ->
  exists block,
    ASN1.getBytes (shapedKey schemaTags d) = Ok block /\
    ASN1.getBytes
      (shaped schemaTags (ByteString.ofOID id_ecPublicKey) h
         (ByteString.ofOID prime_field) p a b g n block) = Ok out.
Proof.
  unfold assembled. intros H.
  rewrite (getBytes_Constructed _ [_; _; _]) in H.
  cbn [ASN1.content] in H.
  rewrite (getBytes_wrapper ASN1.OCTET_STRING [shapedKey schemaTags d]) in H.
  cbn [ASN1.content] in H.
  destruct (ASN1.getBytes (shapedKey schemaTags d)) as [block|e] eqn:E.
  - exists block. split; [reflexivity|].
    cbn [bind] in H. rewrite app_nil_r in H.
    unfold shaped. rewrite (getBytes_Constructed _ [_; _; _]).
    cbn [ASN1.content]. exact H.
  - exfalso. cbn [bind] in H.
    inv_binds. discriminate.
Qed.

(** ** Decoding a tree of the schema's nesting *)

Lemma decode_shaped (tg : nat -> byte)
    (oid1 h oid2 p a b : ByteString.t) (m : byte)
    (r n d block out : ByteString.t) :
  canonical (shaped tg oid1 h oid2 p a b (m :: r) n block) = true ->
  canonical (shapedKey tg d) = true ->
  ASN1.getBytes (shapedKey tg d) = Ok block ->
  ASN1.getBytes (shaped tg oid1 h oid2 p a b (m :: r) n block) = Ok out ->
  let w := Z.to_nat (Z.of_nat (List.length r) / 2) in
  decodeKeyFromPKCS8Format out
  = Ok (privateKeyWith d h p a b (firstn w r) (firstn w (skipn w r)) n).
Proof.
  intros Hcan Hcan' Hblock Hout w.
  unfold decodeKeyFromPKCS8Format.
  rewrite (parse_getBytes _ _ Hcan Hout). cbn [bind].
  change (ASN1.get (shaped tg oid1 h oid2 p a b (m :: r) n block) 2)
    with (Ok (ASN1.Primitive (tg 14%nat) block)).
  cbn [bind ASN1.value].
  rewrite (parse_getBytes _ _ Hcan' Hblock). cbn [bind].
  unfold shaped, shapedKey.
  repeat (simpl (ASN1.get _ _); cbn [bind ASN1.value]).
  rewrite decodeUncompressedECPoint_cons. cbn [bind].
  repeat (simpl (ASN1.get _ _); cbn [bind ASN1.value]).
  reflexivity.
Qed.

(** ** Encoding, then parsing *)

(** Every successful [encodeKeyUsingPKCS8Format] read back by the
    parser: the components the key holds, and the tree of the output. *)
Lemma encode_Ok (key : Key.t) (out : ByteString.t) :
  encodeKeyUsingPKCS8Format key = Ok out ->
  exists h p a b gx gy n d block,
    hasType key PRIVATE = true /\
    components key ECC_H = Some h /\ components key ECC_P = Some p /\
    components key ECC_A = Some a /\ components key ECC_B = Some b /\
    components key ECC_GX = Some gx /\ components key ECC_GY = Some gy /\
    components key ECC_N = Some n /\ components key ECC_D = Some d /\
    p <> [] /\ n <> [] /\
    ASN1.getBytes (assembled (dropZeros h) (signPadded p) a b
                     (x04 :: gx ++ gy) (signPadded n) d) = Ok out /\
    ASN1.getBytes (shapedKey schemaTags d) = Ok block /\
    ASN1.getBytes
      (shaped schemaTags (ByteString.ofOID id_ecPublicKey) (dropZeros h)
         (ByteString.ofOID prime_field) (signPadded p) a b
         (x04 :: gx ++ gy) (signPadded n) block) = Ok out /\
    ASN1.parse out
    = Ok (shaped schemaTags (ByteString.ofOID id_ecPublicKey) (dropZeros h)
            (ByteString.ofOID prime_field) (signPadded p) a b
            (x04 :: gx ++ gy) (signPadded n) block).
Proof.
  unfold encodeKeyUsingPKCS8Format. intros H.
  inv_bind H. rename v into tree.
  destruct (privateKeyInfo_Ok key tree E)
    as (h & p & a & b & gx & gy & n & d & Ht & EH & EP & EA & EB & EGX
        & EGY & EN & ED & Hp & Hn & ->).
  destruct (getBytes_assembled _ _ _ _ _ _ _ _ H) as (block & Hb & Hout).
  exists h, p, a, b, gx, gy, n, d, block.
  repeat (split; [assumption|]).
  apply parse_getBytes; [reflexivity | exact Hout].
Qed.

Lemma dropZeros_idem (s : ByteString.t) :
  dropZeros (dropZeros s) = dropZeros s.
Proof.
  induction s as [|b r IH]; [reflexivity|].
  cbn [dropZeros]. destruct (Byte.eqb b x00) eqn:E; [exact IH|].
  cbn [dropZeros]. now rewrite E.
Qed.

Lemma signPadded_idem (s : ByteString.t) :
  signPadded (signPadded s) = signPadded s.
Proof.
  destruct s as [|b r]; [reflexivity|].
  cbn [signPadded]. destruct (N.testbit (Byte.to_N b) 7) eqn:E.
  - reflexivity.
  - cbn [signPadded]. now rewrite E.
Qed.

Lemma signPadded_nonempty (s : ByteString.t) : s <> [] -> signPadded s <> [].
Proof.
  destruct s as [|b r]; [contradiction|]. intros _.
  cbn [signPadded]. destruct (N.testbit (Byte.to_N b) 7); discriminate.
Qed.

Lemma signPadded_paddedAs (s : ByteString.t) :
  s <> [] -> paddedAs s (signPadded s).
Proof.
  destruct s as [|b r]; [contradiction|]. intros _.
  exists b, r. split; [reflexivity|].
  rewrite signPadded_cons.
  split; intros Hb.
  - replace (128 <=? Z.of_N (Byte.to_N b)) with true
      by (symmetry; apply Z.leb_le; lia). auto.
  - replace (128 <=? Z.of_N (Byte.to_N b)) with false
      by (symmetry; apply Z.leb_gt; lia). auto.
Qed.

Lemma halves_same_width (xs ys : ByteString.t) :
  List.length xs = List.length ys ->
  let w := Z.to_nat (Z.of_nat (List.length (xs ++ ys)) / 2) in
  firstn w (xs ++ ys) = xs /\ firstn w (skipn w (xs ++ ys)) = ys.
Proof.
  intros Hxy w.
  assert (Hw : w = List.length xs).
  { unfold w. rewrite length_app, <- Hxy.
    replace (Z.of_nat (List.length xs + List.length xs))
      with (Z.of_nat (List.length xs) * 2) by lia.
    rewrite Z.div_mul by lia. lia. }
  rewrite Hw. split.
  - now rewrite firstn_app, Nat.sub_diag, firstn_all, firstn_O, app_nil_r.
  - rewrite skipn_app, Nat.sub_diag, skipn_all, skipn_O. cbn [app].
    rewrite Hxy. apply firstn_all.
Qed.

Lemma halves_even (r : ByteString.t) :
  Nat.Even (List.length r) ->
  let w := Z.to_nat (Z.of_nat (List.length r) / 2) in
  firstn w r ++ firstn w (skipn w r) = r.
Proof.
  intros [k Hk] w.
  assert (Hw : w = k).
  { unfold w. rewrite Hk.
    replace (Z.of_nat (2 * k)) with (Z.of_nat k * 2) by lia.
    rewrite Z.div_mul by lia. lia. }
  rewrite Hw.
  rewrite <- (firstn_skipn k r) at 3. f_equal.
  apply firstn_all2. rewrite length_skipn. lia.
Qed.

(** Two slices of one and the same width never make up an odd number of
    octets, however the width is chosen. *)
Lemma equal_slices_even (xs ys r : ByteString.t) :
  List.length xs = List.length ys -> xs ++ ys = r ->
  Nat.Even (List.length r).
Proof.
  intros Hxy <-. rewrite length_app, Hxy.
  exists (List.length ys). lia.
Qed.

(** Decoding the output of the encoder. *)
Lemma decode_encode (key : Key.t) (out : ByteString.t) :
  encodeKeyUsingPKCS8Format key = Ok out ->
  exists h p a b gx gy n d,
    components key ECC_H = Some h /\ components key ECC_P = Some p /\
    components key ECC_A = Some a /\ components key ECC_B = Some b /\
    components key ECC_GX = Some gx /\ components key ECC_GY = Some gy /\
    components key ECC_N = Some n /\ components key ECC_D = Some d /\
    p <> [] /\ n <> [] /\
    ASN1.getBytes (assembled (dropZeros h) (signPadded p) a b
                     (x04 :: gx ++ gy) (signPadded n) d) = Ok out /\
    let w := Z.to_nat (Z.of_nat (List.length (gx ++ gy)) / 2) in
    decodeKeyFromPKCS8Format out
    = Ok (privateKeyWith d (dropZeros h) (signPadded p) a b
            (firstn w (gx ++ gy)) (firstn w (skipn w (gx ++ gy)))
            (signPadded n)).
Proof.
  intros H.
  destruct (encode_Ok key out H)
    as (h & p & a & b & gx & gy & n & d & block & Ht & EH & EP & EA & EB
        & EGX & EGY & EN & ED & Hp & Hn & Hasm & Hb & Hout & _).
  exists h, p, a, b, gx, gy, n, d.
  repeat (split; [assumption|]).
  exact (decode_shaped schemaTags _ _ _ _ _ _ x04 (gx ++ gy) _ d block out
           eq_refl eq_refl Hb Hout).
Qed.

(** ** Errors of the encoder *)

Lemma bind_Throw {A B : Type} (r : result A) (k : A -> result B)
    (e : GPError) :
  bind r k = Throw e ->
  r = Throw e \/ exists a, r = Ok a /\ k a = Throw e.
Proof. destruct r as [a|e']; simpl; intros H; [right; eauto | left; congruence]. Qed.

Lemma encodeLength_Throw (len : nat) (e : GPError) :
  ASN1.encodeLength len = Throw e -> e = INVALID_LENGTH.
Proof.
  unfold ASN1.encodeLength.
  repeat match goal with
         | |- context [if ?c then _ else _] => destruct c
         end; intros H; try discriminate H.
  now injection H as <-.
Qed.

Lemma getBytes_Throw (node : ASN1.t) (e : GPError) :
  ASN1.getBytes node = Throw e -> e = INVALID_LENGTH.
Proof.
  revert e. induction node as [tg v|tg cs IH] using tree_ind; intros e H.
  - cbn [ASN1.getBytes] in H.
    apply bind_Throw in H as [H|(l & _ & H)]; [|discriminate H].
    exact (encodeLength_Throw _ _ H).
  - rewrite getBytes_Constructed in H.
    apply bind_Throw in H as [H|(body & _ & H)].
    + clear tg. induction cs as [|c r IHr]; [discriminate H|].
      apply Forall_cons_iff in IH as [Hc Hr].
      cbn [ASN1.content] in H.
      apply bind_Throw in H as [H|(x & _ & H)]; [exact (Hc _ H)|].
      apply bind_Throw in H as [H|(y & _ & H)]; [|discriminate H].
      exact (IHr Hr H).
    + apply bind_Throw in H as [H|(l & _ & H)]; [|discriminate H].
      exact (encodeLength_Throw _ _ H).
Qed.

Ltac absent_component Hrun c x :=
  let E := fresh "E" x in
  destruct (components _ c) as [x|] eqn:E;
  cbn [bind] in Hrun; [|injection Hrun as <-; discriminate].

(** Once the assertion has passed, no later statement raises it. *)
Lemma privateKeyInfo_Throw (key : Key.t) (e : GPError) :
  hasType key PRIVATE = true ->
  privateKeyInfo key = Throw e -> e <> ASSERTION_FAILED.
Proof.
  unfold privateKeyInfo. intros Ht H. rewrite Ht in H.
  change (ByteString.ofHex "00") with (Ok [x00]) in H.
  change (ByteString.ofHex "01") with (Ok [x01]) in H.
  unfold getComponent, ASN1.new, ASN1.newValue, ByteString.concat in H.
  cbn [assert bind ASN1.add app] in H.
  absent_component H ECC_H h.
  rewrite stripLeadingZeros_eq in H. cbn [bind ASN1.add app] in H.
  absent_component H ECC_P p.
  destruct p as [|p0 p'];
    [rewrite byteAt_nil in H; injection H as <-; discriminate|].
  rewrite byteAt_head in H. cbn [bind] in H.
  destruct (128 <=? Z.of_N (Byte.to_N p0)); cbn [bind ASN1.add app] in H.
  all: absent_component H ECC_A a; absent_component H ECC_B b.
  all: absent_component H ECC_GX gx; absent_component H ECC_GY gy.
  all: rewrite encodeUncompressedECPoint_eq in H; cbn [bind] in H.
  all: absent_component H ECC_N n.
  all: destruct n as [|n0 n'];
    [rewrite byteAt_nil in H; injection H as <-; discriminate|].
  all: rewrite byteAt_head in H; cbn [bind] in H.
  all: destruct (128 <=? Z.of_N (Byte.to_N n0)); cbn [bind ASN1.add app] in H.
  all: absent_component H ECC_D d.
  all: discriminate H.
Qed.

Lemma hasType_PRIVATE (key : Key.t) :
  hasType key PRIVATE = true <-> getType key = Some PRIVATE.
Proof.
  unfold hasType. destruct (getType key) as [[| |]|]; simpl;
    split; intros H; congruence.
Qed.

(** ** Success of the encoder *)

Lemma encodeLength_Ok (len : nat) :
  (N.of_nat len < 4294967296)%N ->
  exists l, ASN1.encodeLength len = Ok l /\ (List.length l <= 5)%nat.
Proof.
  intros Hlen. unfold ASN1.encodeLength.
  repeat match goal with
         | |- context [(?a <? ?b)%N] => destruct (N.ltb_spec a b)
         end;
    try (eexists; split; [reflexivity | cbn [List.length]; lia]).
  lia.
Qed.

Lemma getBytes_Ok (node : ASN1.t) :
  (N.of_nat (size node) < 4294967296)%N ->
  exists enc,
    ASN1.getBytes node = Ok enc /\ (List.length enc <= size node)%nat.
Proof.
  induction node as [tg v|tg cs IH] using tree_ind; intros Hsize.
  - cbn [size] in Hsize |- *.
    destruct (encodeLength_Ok (List.length v)) as (l & El & Hl); [lia|].
    exists (tg :: l ++ v). cbn [ASN1.getBytes]. rewrite El. cbn [bind].
    split; [reflexivity|]. cbn [List.length]. rewrite length_app. lia.
  - cbn [size] in Hsize |- *.
    assert (Hbody : exists body,
               ASN1.content cs = Ok body /\
               (List.length body <= list_sum (map size cs))%nat).
    { clear tg. revert IH Hsize.
      induction cs as [|c r IHr]; intros IH Hsize.
      - exists []. split; [reflexivity | cbn; lia].
      - apply Forall_cons_iff in IH as [Hc Hr].
        change (list_sum (map size (c :: r)))
          with (size c + list_sum (map size r))%nat in Hsize |- *.
        destruct Hc as (e & Ee & He); [lia|].
        destruct (IHr Hr) as (es & Ees & Hes); [lia|].
        exists (e ++ es). cbn [ASN1.content]. rewrite Ee, Ees. cbn [bind].
        split; [reflexivity|]. rewrite length_app. lia. }
    destruct Hbody as (body & Eb & Hb).
    destruct (encodeLength_Ok (List.length body)) as (l & El & Hl); [lia|].
    exists (tg :: l ++ body). rewrite getBytes_Constructed, Eb. cbn [bind].
    rewrite El. cbn [bind].
    split; [reflexivity|]. cbn [List.length]. rewrite length_app. lia.
Qed.

Lemma length_dropZeros (s : ByteString.t) :
  (List.length (dropZeros s) <= List.length s)%nat.
Proof.
  induction s as [|b r IH]; [reflexivity|].
  cbn [dropZeros]. destruct (Byte.eqb b x00); cbn [List.length]; lia.
Qed.

Lemma length_signPadded (s : ByteString.t) :
  (List.length (signPadded s) <= S (List.length s))%nat.
Proof.
  destruct s as [|b r]; [cbn; lia|].
  cbn [signPadded]. destruct (N.testbit (Byte.to_N b) 7);
    cbn [List.length]; lia.
Qed.

(** A PRIVATE key holding all eight components, P and N not empty, is
    encoded without any error (for all sizes a length field can hold). *)
Lemma encode_succeeds (key : Key.t) (h p a b gx gy n d : ByteString.t) :
  getType key = Some PRIVATE ->
  getComponent key ECC_H = Ok h -> getComponent key ECC_P = Ok p ->
  getComponent key ECC_A = Ok a -> getComponent key ECC_B = Ok b ->
  getComponent key ECC_GX = Ok gx -> getComponent key ECC_GY = Ok gy ->
  getComponent key ECC_N = Ok n -> getComponent key ECC_D = Ok d ->
  p <> [] -> n <> [] ->
  (N.of_nat (List.length h + List.length p + List.length a + List.length b
             + List.length gx + List.length gy + List.length n
             + List.length d) < 4294967000)%N ->
  exists out, encodeKeyUsingPKCS8Format key = Ok out.
Proof.
  unfold getComponent.
  intros Ht EH EP EA EB EGX EGY EN ED Hp Hn Hsize.
  apply hasType_PRIVATE in Ht.
  destruct (components key ECC_H) eqn:FH; [injection EH as ->|discriminate].
  destruct (components key ECC_P) eqn:FP; [injection EP as ->|discriminate].
  destruct (components key ECC_A) eqn:FA; [injection EA as ->|discriminate].
  destruct (components key ECC_B) eqn:FB; [injection EB as ->|discriminate].
  destruct (components key ECC_GX) eqn:FGX;
    [injection EGX as ->|discriminate].
  destruct (components key ECC_GY) eqn:FGY;
    [injection EGY as ->|discriminate].
  destruct (components key ECC_N) eqn:FN; [injection EN as ->|discriminate].
  destruct (components key ECC_D) eqn:FD; [injection ED as ->|discriminate].
  unfold encodeKeyUsingPKCS8Format.
  rewrite (privateKeyInfo_present key h p a b gx gy n d) by assumption.
  cbn [bind].
  destruct (getBytes_Ok (assembled (dropZeros h) (signPadded p) a b
                           (x04 :: gx ++ gy) (signPadded n) d))
    as (out & Hout & _); [|now exists out].
  pose proof (length_dropZeros h). pose proof (length_signPadded p).
  pose proof (length_signPadded n).
  unfold assembled, shapedKey.
  cbn [size map list_sum fold_right List.length].
  change (List.length (ByteString.ofOID id_ecPublicKey)) with 7%nat.
  change (List.length (ByteString.ofOID prime_field)) with 7%nat.
  rewrite length_app. lia.
Qed.

(* ================================================================== *)
(** * The claims *)

(** ** Point codec *)

(** C6: for all byte sequences x and y, [encodeUncompressedECPoint] returns
    exactly the marker octet 0x04, then the octets of x, then the octets of
    y, with no length prefix and no padding; for x = 12 34 and y = 56 78
    the result is the five octets 04 12 34 56 78. *)
Theorem encodeUncompressedECPoint_layout :
  (forall x y : ByteString.t,
     encodeUncompressedECPoint x y = Ok ([x04] ++ x ++ y)) /\
  encodeUncompressedECPoint [x12; x34] [x56; x78]
  = Ok [x04; x12; x34; x56; x78].
Proof.
  split; [intros x y|]; apply encodeUncompressedECPoint_eq.
Qed.

(** C5: for equal-width byte sequences x and y, decoding the uncompressed
    encoding of (x, y) returns the pair (x, y) unchanged. *)
Theorem decode_encode_point (xs ys : ByteString.t) :
  List.length xs = List.length ys ->
  (point <- encodeUncompressedECPoint xs ys ;;
   decodeUncompressedECPoint point)
  = Ok {| x := xs; y := ys |}.
Proof.
  intros Hxy. rewrite encodeUncompressedECPoint_eq. cbn [bind].
  now apply decodeUncompressedECPoint_halves.
Qed.

Lemma decode_encode_point_witness :
  (point <- encodeUncompressedECPoint [x12; x34] [x56; x78] ;;
   decodeUncompressedECPoint point)
  = Ok {| x := [x12; x34]; y := [x56; x78] |}.
Proof. exact (decode_encode_point [x12; x34] [x56; x78] eq_refl). Defined.

(** C7: on every byte sequence of length 1 + 2n, whatever its first octet,
    [decodeUncompressedECPoint] returns as x the n octets at positions
    [1, 1+n) and as y the n octets at positions [1+n, 1+2n). *)
Theorem decodeUncompressedECPoint_slices (bs : ByteString.t) (n : nat) :
  List.length bs = (1 + 2 * n)%nat ->
  decodeUncompressedECPoint bs
  = Ok {| x := firstn n (skipn 1 bs); y := firstn n (skipn (1 + n) bs) |}.
Proof.
  intros Hlen. destruct bs as [|m r]; [discriminate Hlen|].
  rewrite decodeUncompressedECPoint_cons.
  cbn [List.length] in Hlen.
  assert (Hw : Z.to_nat (Z.of_nat (List.length r) / 2) = n).
  { replace (Z.of_nat (List.length r)) with (Z.of_nat n * 2) by lia.
    rewrite Z.div_mul by lia. lia. }
  rewrite Hw. reflexivity.
Qed.

Lemma decodeUncompressedECPoint_slices_witness :
  decodeUncompressedECPoint [xff; x12; x34; x56; x78]
  = Ok {| x := [x12; x34]; y := [x56; x78] |}.
Proof.
  exact (decodeUncompressedECPoint_slices [xff; x12; x34; x56; x78] 2
           eq_refl).
Defined.

(** ** Leading zeros *)

(** C8: [stripLeadingZeros] maps every all-zero sequence, of any length
    including 0, to the empty sequence, maps 00 01 FF to 01 FF, and in
    general removes exactly the longest prefix of zero octets: the input is
    some zeros followed by the result, and the result does not start with a
    zero. *)
Theorem stripLeadingZeros_spec :
  (forall n : nat, stripLeadingZeros (repeat x00 n) = Ok []) /\
  stripLeadingZeros [x00; x01; xff] = Ok [x01; xff] /\
  (forall value : ByteString.t,
     exists (k : nat) (rest : ByteString.t),
       value = repeat x00 k ++ rest /\
       hd_error rest <> Some x00 /\
       stripLeadingZeros value = Ok rest).
Proof.
  split; [|split].
  - intros n. rewrite stripLeadingZeros_eq. f_equal.
    induction n as [|n IH]; [reflexivity | exact IH].
  - now rewrite stripLeadingZeros_eq.
  - intros value. rewrite stripLeadingZeros_eq.
    induction value as [|b r (k & rest & Hr & Hhd & Hs)].
    + exists 0%nat, []. repeat split. discriminate.
    + cbn [dropZeros]. destruct (Byte.eqb b x00) eqn:E.
      * apply Byte.byte_dec_bl in E. subst b.
        exists (S k), rest. cbn [repeat app]. repeat split; auto.
        now f_equal.
      * exists 0%nat, (b :: r). repeat split.
        cbn [hd_error]. intros [= ->]. discriminate E.
Qed.

(** ** The encoder's precondition *)

(** C9, as the code has it: [encodeKeyUsingPKCS8Format] fails with the
    assertion failure for every key whose kind is not PRIVATE, and for no
    PRIVATE key. It returns bytes only for a PRIVATE key that holds the
    eight components H, P, A, B, GX, GY, N and D with P and N not empty,
    and it does return bytes for every such key (whose content a length
    field can hold); any other PRIVATE key fails with another error. *)
Theorem encode_precondition (key : Key.t) :
  (getType key <> Some PRIVATE ->
   encodeKeyUsingPKCS8Format key = Throw ASSERTION_FAILED) /\
  (getType key = Some PRIVATE ->
   encodeKeyUsingPKCS8Format key <> Throw ASSERTION_FAILED) /\
  (forall out : ByteString.t,
     encodeKeyUsingPKCS8Format key = Ok out ->
     getType key = Some PRIVATE /\
     exists h p a b gx gy n d,
       getComponent key ECC_H = Ok h /\ getComponent key ECC_P = Ok p /\
       getComponent key ECC_A = Ok a /\ getComponent key ECC_B = Ok b /\
       getComponent key ECC_GX = Ok gx /\ getComponent key ECC_GY = Ok gy /\
       getComponent key ECC_N = Ok n /\ getComponent key ECC_D = Ok d /\
       p <> [] /\ n <> []) /\
  (forall h p a b gx gy n d : ByteString.t,
     getType key = Some PRIVATE ->
     getComponent key ECC_H = Ok h -> getComponent key ECC_P = Ok p ->
     getComponent key ECC_A = Ok a -> getComponent key ECC_B = Ok b ->
     getComponent key ECC_GX = Ok gx -> getComponent key ECC_GY = Ok gy ->
     getComponent key ECC_N = Ok n -> getComponent key ECC_D = Ok d ->
     p <> [] -> n <> [] ->
     (N.of_nat (List.length h + List.length p + List.length a
                + List.length b + List.length gx + List.length gy
                + List.length n + List.length d) < 4294967000)%N ->
     exists out, encodeKeyUsingPKCS8Format key = Ok out).
Proof.
  split; [|split; [|split]].
  - intros Ht. unfold encodeKeyUsingPKCS8Format, privateKeyInfo.
    destruct (hasType key PRIVATE) eqn:E; [|reflexivity].
    now apply hasType_PRIVATE in E.
  - intros Ht. apply hasType_PRIVATE in Ht. intros H.
    unfold encodeKeyUsingPKCS8Format in H.
    apply bind_Throw in H as [H|(tree & _ & H)].
    + now apply (privateKeyInfo_Throw key _ Ht H).
    + apply getBytes_Throw in H. discriminate H.
  - intros out H.
    destruct (encode_Ok key out H)
      as (h & p & a & b & gx & gy & n & d & block & Ht & EH & EP & EA & EB
          & EGX & EGY & EN & ED & Hp & Hn & _).
    split; [now apply hasType_PRIVATE|].
    exists h, p, a, b, gx, gy, n, d. unfold getComponent.
    rewrite EH, EP, EA, EB, EGX, EGY, EN, ED.
    repeat (split; [reflexivity|]). split; assumption.
  - intros h p a b gx gy n d. apply encode_succeeds.
Qed.

Lemma encode_precondition_witness :
  encodeKeyUsingPKCS8Format publicKey = Throw ASSERTION_FAILED /\
  encodeKeyUsingPKCS8Format Key.new = Throw ASSERTION_FAILED /\
  encodeKeyUsingPKCS8Format sampleKey <> Throw ASSERTION_FAILED /\
  (getType sampleKey = Some PRIVATE /\
   exists h p a b gx gy n d,
     getComponent sampleKey ECC_H = Ok h /\
     getComponent sampleKey ECC_P = Ok p /\
     getComponent sampleKey ECC_A = Ok a /\
     getComponent sampleKey ECC_B = Ok b /\
     getComponent sampleKey ECC_GX = Ok gx /\
     getComponent sampleKey ECC_GY = Ok gy /\
     getComponent sampleKey ECC_N = Ok n /\
     getComponent sampleKey ECC_D = Ok d /\
     p <> [] /\ n <> []) /\
  exists out, encodeKeyUsingPKCS8Format sampleKey = Ok out.
Proof.
  split; [|split; [|split; [|split]]].
  - apply (proj1 (encode_precondition publicKey)). discriminate.
  - apply (proj1 (encode_precondition Key.new)). discriminate.
  - apply (proj1 (proj2 (encode_precondition sampleKey))). reflexivity.
  - exact (proj1 (proj2 (proj2 (encode_precondition sampleKey)))
             sampleEncoding eq_refl).
  - apply (proj2 (proj2 (proj2 (encode_precondition sampleKey)))
             [x00; x01] [xff; x01] [x0a] [x0b] [x12; x34] [x56; x78]
             [x7f; x02] [xdd; xee]);
      try reflexivity; try discriminate.
Defined.

(** C9 as stated fails: a PRIVATE key is not always encoded. One that
    holds no component fails at the first [getComponent], one whose P has
    no octet at [byteAt(0)]; neither failure is the assertion. *)
Lemma private_key_not_encoded_counterexample :
  getType emptyPrivateKey = Some PRIVATE /\
  encodeKeyUsingPKCS8Format emptyPrivateKey = Throw OBJECT_NOT_FOUND /\
  getType sampleKeyEmptyP = Some PRIVATE /\
  getComponent sampleKeyEmptyP ECC_P = Ok [] /\
  encodeKeyUsingPKCS8Format sampleKeyEmptyP = Throw INVALID_INDEX /\
  forall out,
    encodeKeyUsingPKCS8Format emptyPrivateKey <> Ok out /\
    encodeKeyUsingPKCS8Format sampleKeyEmptyP <> Ok out.
Proof.
  repeat (split; [reflexivity|]).
  intros out. split; discriminate.
Qed.

(** ** Integers and octet strings of the encoding *)

(** C3: in the output of [encodeKeyUsingPKCS8Format], the INTEGER of P
    (second child of the field sequence) and the INTEGER of N (fifth child
    of the domain parameters) carry the stored octets with one 0x00 in
    front, one octet longer, when the first stored octet is 0x80 or more,
    and exactly the stored octets otherwise; P = FF 01 is written as
    00 FF 01. *)
Theorem sign_padding_of_P_and_N :
  (forall (key : Key.t) (out p n : ByteString.t),
     encodeKeyUsingPKCS8Format key = Ok out ->
     getComponent key ECC_P = Ok p ->
     getComponent key ECC_N = Ok n ->
     exists root vp vn,
       ASN1.parse out = Ok root /\
       nodeAt root [1; 1; 1; 1] = Ok (ASN1.Primitive ASN1.INTEGER vp) /\
       nodeAt root [1; 1; 4] = Ok (ASN1.Primitive ASN1.INTEGER vn) /\
       paddedAs p vp /\ paddedAs n vn) /\
  (forall (key : Key.t) (out : ByteString.t),
     encodeKeyUsingPKCS8Format key = Ok out ->
     getComponent key ECC_P = Ok [xff; x01] ->
     exists root,
       ASN1.parse out = Ok root /\
       nodeAt root [1; 1; 1; 1]
       = Ok (ASN1.Primitive ASN1.INTEGER [x00; xff; x01])).
Proof.
  split.
  - intros key out p n H HP HN.
    destruct (encode_Ok key out H)
      as (h & p' & a & b & gx & gy & n' & d & block & _ & _ & EP & _ & _
          & _ & _ & EN & _ & Hp & Hn & _ & _ & _ & Hparse).
    unfold getComponent in HP, HN. rewrite EP in HP. rewrite EN in HN.
    injection HP as <-. injection HN as <-.
    eexists _, (signPadded p'), (signPadded n').
    split; [exact Hparse|].
    split; [reflexivity|]. split; [reflexivity|].
    split; now apply signPadded_paddedAs.
  - intros key out H HP.
    destruct (encode_Ok key out H)
      as (h & p' & a & b & gx & gy & n' & d & block & _ & _ & EP & _ & _
          & _ & _ & _ & _ & _ & _ & _ & _ & _ & Hparse).
    unfold getComponent in HP. rewrite EP in HP. injection HP as ->.
    eexists. split; [exact Hparse|]. reflexivity.
Qed.

Lemma sign_padding_of_P_and_N_witness :
  (exists root vp vn,
     ASN1.parse sampleEncoding = Ok root /\
     nodeAt root [1; 1; 1; 1] = Ok (ASN1.Primitive ASN1.INTEGER vp) /\
     nodeAt root [1; 1; 4] = Ok (ASN1.Primitive ASN1.INTEGER vn) /\
     paddedAs [xff; x01] vp /\ paddedAs [x7f; x02] vn) /\
  (exists root,
     ASN1.parse sampleEncoding = Ok root /\
     nodeAt root [1; 1; 1; 1]
     = Ok (ASN1.Primitive ASN1.INTEGER [x00; xff; x01])).
Proof.
  split.
  - exact (proj1 sign_padding_of_P_and_N sampleKey sampleEncoding
             [xff; x01] [x7f; x02] eq_refl eq_refl eq_refl).
  - exact (proj2 sign_padding_of_P_and_N sampleKey sampleEncoding
             eq_refl eq_refl).
Defined.

(** C4, as the code has it: in the output of [encodeKeyUsingPKCS8Format]
    the cofactor is an INTEGER whose value octets are H with its leading
    zero octets stripped and nothing put in front (which is the
    sign-padded form whenever what is left is empty or starts with an octet
    below 0x80); A and B are OCTET STRINGs carrying their stored octets
    unchanged. *)
Theorem cofactor_and_coefficients (key : Key.t) (out h a b : ByteString.t) :
  encodeKeyUsingPKCS8Format key = Ok out ->
  getComponent key ECC_H = Ok h ->
  getComponent key ECC_A = Ok a ->
  getComponent key ECC_B = Ok b ->
  exists root stripped,
    ASN1.parse out = Ok root /\
    stripLeadingZeros h = Ok stripped /\
    nodeAt root [1; 1; 0] = Ok (ASN1.Primitive ASN1.INTEGER stripped) /\
    (N.testbit (Byte.to_N (hd x00 stripped)) 7 = false ->
     signPadded stripped = stripped) /\
    nodeAt root [1; 1; 2; 0] = Ok (ASN1.Primitive ASN1.OCTET_STRING a) /\
    nodeAt root [1; 1; 2; 1] = Ok (ASN1.Primitive ASN1.OCTET_STRING b).
Proof.
  intros H HH HA HB.
  destruct (encode_Ok key out H)
    as (h' & p & a' & b' & gx & gy & n & d & block & _ & EH & _ & EA & EB
        & _ & _ & _ & _ & _ & _ & _ & _ & _ & Hparse).
  unfold getComponent in HH, HA, HB.
  rewrite EH in HH. rewrite EA in HA. rewrite EB in HB.
  injection HH as <-. injection HA as <-. injection HB as <-.
  eexists _, (dropZeros h').
  split; [exact Hparse|].
  split; [apply stripLeadingZeros_eq|].
  split; [reflexivity|].
  split; [|split; reflexivity].
  destruct (dropZeros h') as [|b0 r]; [reflexivity|].
  cbn [hd signPadded]. now intros ->.
Qed.

Lemma cofactor_and_coefficients_witness :
  exists root stripped,
    ASN1.parse sampleEncoding = Ok root /\
    stripLeadingZeros [x00; x01] = Ok stripped /\
    nodeAt root [1; 1; 0] = Ok (ASN1.Primitive ASN1.INTEGER stripped) /\
    (N.testbit (Byte.to_N (hd x00 stripped)) 7 = false ->
     signPadded stripped = stripped) /\
    nodeAt root [1; 1; 2; 0] = Ok (ASN1.Primitive ASN1.OCTET_STRING [x0a]) /\
    nodeAt root [1; 1; 2; 1] = Ok (ASN1.Primitive ASN1.OCTET_STRING [x0b]).
Proof.
  exact (cofactor_and_coefficients sampleKey sampleEncoding
           [x00; x01] [x0a] [x0b] eq_refl eq_refl eq_refl eq_refl).
Defined.

(** C4 as stated fails: for the cofactor 0x80 the claim asks for the value
    octets 00 80, the encoder writes the single octet 80. *)
Lemma cofactor_sign_padding_counterexample :
  getComponent sampleKeyH80 ECC_H = Ok [x80] /\
  signPadded (dropZeros [x80]) = [x00; x80] /\
  exists out root,
    encodeKeyUsingPKCS8Format sampleKeyH80 = Ok out /\
    ASN1.parse out = Ok root /\
    nodeAt root [1; 1; 0] = Ok (ASN1.Primitive ASN1.INTEGER [x80]) /\
    nodeAt root [1; 1; 0]
    <> Ok (ASN1.Primitive ASN1.INTEGER (signPadded (dropZeros [x80]))).
Proof.
  split; [reflexivity|]. split; [reflexivity|].
  eexists _, _. split; [vm_compute; reflexivity|].
  split; [vm_compute; reflexivity|].
  split; [reflexivity|].
  vm_compute. discriminate.
Qed.

(** ** Round trips of keys *)

(** C1, as the code has it: for a PRIVATE key whose encoding succeeds and
    whose GX and GY have the same width, decoding the encoding yields a
    PRIVATE key with D, GX, GY, A and B octet for octet those of the key,
    H with its leading zero octets stripped, and P and N as the encoder
    wrote them: with one 0x00 in front when the first stored octet is 0x80
    or more, unchanged otherwise. *)
Theorem decode_encode_components (key : Key.t) (out gx gy : ByteString.t) :
  encodeKeyUsingPKCS8Format key = Ok out ->
  getComponent key ECC_GX = Ok gx ->
  getComponent key ECC_GY = Ok gy ->
  List.length gx = List.length gy ->
  exists key' h p n p' n',
    decodeKeyFromPKCS8Format out = Ok key' /\
    getType key' = Some PRIVATE /\
    sameComponent key key' ECC_D /\
    sameComponent key key' ECC_GX /\
    sameComponent key key' ECC_GY /\
    sameComponent key key' ECC_A /\
    sameComponent key key' ECC_B /\
    getComponent key ECC_H = Ok h /\
    getComponent key' ECC_H = stripLeadingZeros h /\
    getComponent key ECC_P = Ok p /\
    getComponent key' ECC_P = Ok p' /\ paddedAs p p' /\
    getComponent key ECC_N = Ok n /\
    getComponent key' ECC_N = Ok n' /\ paddedAs n n'.
Proof.
  intros H HGX HGY Hw.
  destruct (decode_encode key out H)
    as (h & p & a & b & gx' & gy' & n & d & EH & EP & EA & EB & EGX & EGY
        & EN & ED & Hp & Hn & _ & Hdec).
  unfold getComponent in HGX, HGY. rewrite EGX in HGX. rewrite EGY in HGY.
  injection HGX as ->. injection HGY as ->.
  destruct (halves_same_width gx gy Hw) as [Hx Hy].
  cbv zeta in Hdec. rewrite Hx, Hy in Hdec.
  eexists _, h, p, n, (signPadded p), (signPadded n).
  split; [exact Hdec|]. split; [reflexivity|].
  unfold sameComponent, getComponent.
  rewrite EH, EP, EA, EB, EGX, EGY, EN, ED, stripLeadingZeros_eq.
  repeat (split; [first [reflexivity | eexists; split; reflexivity
                         | now apply signPadded_paddedAs]|]).
  now apply signPadded_paddedAs.
Qed.

Lemma decode_encode_components_witness :
  exists key' h p n p' n',
    decodeKeyFromPKCS8Format sampleEncoding = Ok key' /\
    getType key' = Some PRIVATE /\
    sameComponent sampleKey key' ECC_D /\
    sameComponent sampleKey key' ECC_GX /\
    sameComponent sampleKey key' ECC_GY /\
    sameComponent sampleKey key' ECC_A /\
    sameComponent sampleKey key' ECC_B /\
    getComponent sampleKey ECC_H = Ok h /\
    getComponent key' ECC_H = stripLeadingZeros h /\
    getComponent sampleKey ECC_P = Ok p /\
    getComponent key' ECC_P = Ok p' /\ paddedAs p p' /\
    getComponent sampleKey ECC_N = Ok n /\
    getComponent key' ECC_N = Ok n' /\ paddedAs n n'.
Proof.
  exact (decode_encode_components sampleKey sampleEncoding
           [x12; x34] [x56; x78] eq_refl eq_refl eq_refl eq_refl).
Defined.

(** C1 as stated fails: P = FF 01 comes back as 00 FF 01. *)
Lemma decode_encode_P_counterexample :
  hasType sampleKey PRIVATE = true /\
  getComponent sampleKey ECC_P = Ok [xff; x01] /\
  exists out key',
    encodeKeyUsingPKCS8Format sampleKey = Ok out /\
    decodeKeyFromPKCS8Format out = Ok key' /\
    getComponent key' ECC_P = Ok [x00; xff; x01] /\
    getComponent key' ECC_P <> getComponent sampleKey ECC_P.
Proof.
  split; [reflexivity|]. split; [reflexivity|].
  exists sampleEncoding. eexists.
  split; [vm_compute; reflexivity|].
  split; [vm_compute; reflexivity|].
  split; [reflexivity|]. vm_compute. discriminate.
Qed.

(** C2, as the code has it: for a PRIVATE key whose encoding succeeds and
    whose GX and GY have an even number of octets together (as they have
    with equal widths), encoding the decoded encoding gives the encoding
    back, octet for octet. *)
Theorem reencode_stable (key : Key.t) (out gx gy : ByteString.t) :
  encodeKeyUsingPKCS8Format key = Ok out ->
  getComponent key ECC_GX = Ok gx ->
  getComponent key ECC_GY = Ok gy ->
  Nat.Even (List.length gx + List.length gy) ->
  (key' <- decodeKeyFromPKCS8Format out ;;
   encodeKeyUsingPKCS8Format key') = Ok out.
Proof.
  intros H HGX HGY Hev.
  destruct (decode_encode key out H)
    as (h & p & a & b & gx' & gy' & n & d & EH & EP & EA & EB & EGX & EGY
        & EN & ED & Hp & Hn & Hasm & Hdec).
  unfold getComponent in HGX, HGY. rewrite EGX in HGX. rewrite EGY in HGY.
  injection HGX as ->. injection HGY as ->.
  cbv zeta in Hdec. rewrite Hdec. cbn [bind].
  unfold encodeKeyUsingPKCS8Format.
  rewrite (privateKeyInfo_present _ (dropZeros h) (signPadded p) a b
             (firstn (Z.to_nat (Z.of_nat (List.length (gx ++ gy)) / 2))
                (gx ++ gy))
             (firstn (Z.to_nat (Z.of_nat (List.length (gx ++ gy)) / 2))
                (skipn (Z.to_nat (Z.of_nat (List.length (gx ++ gy)) / 2))
                   (gx ++ gy)))
             (signPadded n) d);
    try reflexivity; try now apply signPadded_nonempty.
  cbn [bind].
  rewrite dropZeros_idem, !signPadded_idem, halves_even; [exact Hasm|].
  now rewrite length_app.
Qed.

Lemma reencode_stable_witness :
  (key' <- decodeKeyFromPKCS8Format sampleEncoding ;;
   encodeKeyUsingPKCS8Format key') = Ok sampleEncoding.
Proof.
  apply (reencode_stable sampleKey sampleEncoding [x12; x34] [x56; x78]);
    try reflexivity.
  exists 2%nat. reflexivity.
Defined.

(** C2 as stated fails: with GX of one octet and GY of two, the decoder
    cuts the three octets into two slices of one octet, and the second
    encoding is one octet shorter than the first. *)
Lemma reencode_uneven_counterexample :
  hasType sampleKeyUneven PRIVATE = true /\
  getComponent sampleKeyUneven ECC_GX = Ok [x01] /\
  getComponent sampleKeyUneven ECC_GY = Ok [x02; x03] /\
  exists out key' out',
    encodeKeyUsingPKCS8Format sampleKeyUneven = Ok out /\
    decodeKeyFromPKCS8Format out = Ok key' /\
    getComponent key' ECC_GX = Ok [x01] /\
    getComponent key' ECC_GY = Ok [x02] /\
    encodeKeyUsingPKCS8Format key' = Ok out' /\
    List.length out = 66%nat /\ List.length out' = 65%nat /\
    out' <> out.
Proof.
  split; [reflexivity|]. split; [reflexivity|]. split; [reflexivity|].
  eexists _, _, _.
  split; [vm_compute; reflexivity|].
  split; [vm_compute; reflexivity|].
  split; [reflexivity|]. split; [reflexivity|].
  split; [vm_compute; reflexivity|].
  split; [reflexivity|]. split; [reflexivity|].
  intros E. apply (f_equal (@List.length byte)) in E. discriminate E.
Qed.

(** ** Inputs that are not of the schema *)

Ltac same_results :=
  repeat match goal with
         | H1 : ?a = Ok ?u, H2 : ?a = Ok ?v |- _ =>
             rewrite H1 in H2; first [injection H2 as <- | clear H2]
         end.

Ltac run_with_results :=
  repeat match goal with
         | H : ?lhs = Ok _ |- context [?lhs] => rewrite H; cbn [bind]
         end.

(** [decodeKeyFromPKCS8Format] returns a key exactly when the input
    parses, every position it visits exists and has a value, the value of
    the block parses, and the point can be cut; the key holds the values
    found. *)
Lemma decode_Ok_iff (input : ByteString.t) (key : Key.t) :
  decodeKeyFromPKCS8Format input = Ok key <->
  exists root block inner d h p a b g n c,
    ASN1.parse input = Ok root /\
    valueAt root [2] = Ok block /\
    ASN1.parse block = Ok inner /\
    valueAt inner [1] = Ok d /\
    valueAt root [1; 1; 0] = Ok h /\
    valueAt root [1; 1; 1; 1] = Ok p /\
    valueAt root [1; 1; 2; 0] = Ok a /\
    valueAt root [1; 1; 2; 1] = Ok b /\
    valueAt root [1; 1; 3] = Ok g /\
    decodeUncompressedECPoint g = Ok c /\
    valueAt root [1; 1; 4] = Ok n /\
    key = privateKeyWith d h p a b (x c) (y c) n.
Proof.
  split.
  - unfold decodeKeyFromPKCS8Format. intros H. inv_binds.
    injection H as <-. same_results.
    do 11 eexists.
    split; [eassumption|].
    unfold valueAt, nodeAt. cbn [fold_left bind].
    split; [run_with_results; reflexivity|].
    split; [eassumption|].
    repeat (split; [run_with_results; first [reflexivity | eassumption]|]).
    reflexivity.
  - intros (root & block & inner & d & h & p & a & b & g & n & c
            & Hroot & Hblock & Hinner & Hd & Hh & Hp & Ha & Hb & Hg & Hc
            & Hn & ->).
    unfold valueAt, nodeAt in Hblock, Hd, Hh, Hp, Ha, Hb, Hg, Hn.
    cbn [fold_left bind] in Hblock, Hd, Hh, Hp, Ha, Hb, Hg, Hn.
    inv_binds. same_results.
    unfold decodeKeyFromPKCS8Format. run_with_results. reflexivity.
Qed.

(** C10, as the code has it: [decodeKeyFromPKCS8Format] checks no tag and
    no number of children. It fails, with the error of the host call that
    fails, when the input does not parse, when the root is a leaf, when
    the root has fewer than three children, and whenever one of the
    positions it visits is missing: a child of the input's tree (the
    block, H, P, A, B, the base point, N), a value of the block that does
    not parse, or the second child of the tree parsed from the block. It
    returns a key in all other cases with a base point that can be cut,
    whatever the tags are; every input of the schema's nesting is decoded
    into the key of the values at the visited positions. *)
Theorem decode_is_positional :
  (forall (input : ByteString.t) (e : GPError),
     ASN1.parse input = Throw e ->
     decodeKeyFromPKCS8Format input = Throw e) /\
  (forall (input : ByteString.t) (tg : byte) (v : ByteString.t),
     ASN1.parse input = Ok (ASN1.Primitive tg v) ->
     decodeKeyFromPKCS8Format input = Throw INVALID_TYPE) /\
  (forall (input : ByteString.t) (tg : byte) (cs : list ASN1.t),
     ASN1.parse input = Ok (ASN1.Constructed tg cs) ->
     (List.length cs < 3)%nat ->
     decodeKeyFromPKCS8Format input = Throw INVALID_INDEX) /\
  (forall (tg : nat -> byte) (oid1 h oid2 p a b : ByteString.t) (m : byte)
          (gx gy n d block input : ByteString.t),
     canonical (shaped tg oid1 h oid2 p a b (m :: gx ++ gy) n block) = true ->
     canonical (shapedKey tg d) = true ->
     ASN1.getBytes (shapedKey tg d) = Ok block ->
     ASN1.getBytes (shaped tg oid1 h oid2 p a b (m :: gx ++ gy) n block)
     = Ok input ->
     List.length gx = List.length gy ->
     decodeKeyFromPKCS8Format input
     = Ok (privateKeyWith d h p a b gx gy n)) /\
  (forall (input : ByteString.t) (root : ASN1.t) (path : list Z)
          (e : GPError),
     ASN1.parse input = Ok root ->
     In path visitedPositions ->
     nodeAt root path = Throw e ->
     exists e', decodeKeyFromPKCS8Format input = Throw e') /\
  (forall (input block : ByteString.t) (root : ASN1.t) (e : GPError),
     ASN1.parse input = Ok root ->
     valueAt root [2] = Ok block ->
     ASN1.parse block = Throw e ->
     exists e', decodeKeyFromPKCS8Format input = Throw e') /\
  (forall (input block : ByteString.t) (root inner : ASN1.t) (e : GPError),
     ASN1.parse input = Ok root ->
     valueAt root [2] = Ok block ->
     ASN1.parse block = Ok inner ->
     nodeAt inner [1] = Throw e ->
     exists e', decodeKeyFromPKCS8Format input = Throw e') /\
  (forall (input : ByteString.t) (key : Key.t),
     decodeKeyFromPKCS8Format input = Ok key <->
     exists root block inner d h p a b g n c,
       ASN1.parse input = Ok root /\
       valueAt root [2] = Ok block /\
       ASN1.parse block = Ok inner /\
       valueAt inner [1] = Ok d /\
       valueAt root [1; 1; 0] = Ok h /\
       valueAt root [1; 1; 1; 1] = Ok p /\
       valueAt root [1; 1; 2; 0] = Ok a /\
       valueAt root [1; 1; 2; 1] = Ok b /\
       valueAt root [1; 1; 3] = Ok g /\
       decodeUncompressedECPoint g = Ok c /\
       valueAt root [1; 1; 4] = Ok n /\
       key = privateKeyWith d h p a b (x c) (y c) n).
Proof.
  assert (Hfails : forall input,
            (forall key, decodeKeyFromPKCS8Format input <> Ok key) ->
            exists e', decodeKeyFromPKCS8Format input = Throw e').
  { intros input Hno. destruct (decodeKeyFromPKCS8Format input) as [k|e'].
    - now destruct (Hno k).
    - now exists e'. }
  split; [|split; [|split; [|split; [|split; [|split; [|split]]]]]].
  - intros input e H. unfold decodeKeyFromPKCS8Format. now rewrite H.
  - intros input tg v H. unfold decodeKeyFromPKCS8Format. now rewrite H.
  - intros input tg cs H Hcs. unfold decodeKeyFromPKCS8Format.
    rewrite H. cbn [bind ASN1.get]. change (0 <=? 2) with true.
    replace (nth_error cs (Z.to_nat 2)) with (@None ASN1.t);
      [reflexivity|].
    symmetry. apply nth_error_None. change (Z.to_nat 2) with 2%nat. lia.
  - intros tg oid1 h oid2 p a b m gx gy n d block input
           Hcan Hcan' Hblock Hinput Hw.
    rewrite (decode_shaped tg oid1 h oid2 p a b m (gx ++ gy) n d block input
               Hcan Hcan' Hblock Hinput).
    destruct (halves_same_width gx gy Hw) as [Hx Hy].
    cbv zeta in Hx, Hy. now rewrite Hx, Hy.
  - intros input root path e Hroot Hin Hmiss.
    apply Hfails. intros key Hkey.
    apply decode_Ok_iff in Hkey
      as (root' & block & inner & d & h & p & a & b & g & n & c
          & Hroot' & Hblock & _ & _ & Hh & Hp & Ha & Hb & Hg & _ & Hn & _).
    rewrite Hroot in Hroot'. injection Hroot' as <-.
    unfold valueAt in Hblock, Hh, Hp, Ha, Hb, Hg, Hn.
    cbn [visitedPositions In] in Hin.
    repeat (destruct Hin as [<-|Hin];
            [rewrite Hmiss in *; discriminate|]).
    contradiction.
  - intros input block root e Hroot Hblock Hmiss.
    apply Hfails. intros key Hkey.
    apply decode_Ok_iff in Hkey
      as (root' & block' & inner & d & h & p & a & b & g & n & c
          & Hroot' & Hblock' & Hinner & _).
    rewrite Hroot in Hroot'. injection Hroot' as <-.
    rewrite Hblock in Hblock'. injection Hblock' as <-.
    rewrite Hmiss in Hinner. discriminate Hinner.
  - intros input block root inner e Hroot Hblock Hinner Hmiss.
    apply Hfails. intros key Hkey.
    apply decode_Ok_iff in Hkey
      as (root' & block' & inner' & d & h & p & a & b & g & n & c
          & Hroot' & Hblock' & Hinner' & Hd & _).
    rewrite Hroot in Hroot'. injection Hroot' as <-.
    rewrite Hblock in Hblock'. injection Hblock' as <-.
    rewrite Hinner in Hinner'. injection Hinner' as <-.
    unfold valueAt in Hd. rewrite Hmiss in Hd. discriminate Hd.
  - apply decode_Ok_iff.
Qed.

Lemma decode_is_positional_witness :
  decodeKeyFromPKCS8Format [x02; x01; x00] = Throw INVALID_TYPE /\
  decodeKeyFromPKCS8Format [x30; x03; x02; x01; x00] = Throw INVALID_INDEX /\
  decodeKeyFromPKCS8Format mistaggedEncoding
  = Ok (privateKeyWith [xdd; xee] [x01] [xff; x01] [x0a] [x0b]
          [x12; x34] [x56; x78] [x7f; x02]) /\
  (exists e', decodeKeyFromPKCS8Format truncatedEncoding = Throw e') /\
  (exists e',
     decodeKeyFromPKCS8Format [x30; x06; x05; x00; x05; x00; x04; x00]
     = Throw e') /\
  (exists e',
     decodeKeyFromPKCS8Format
       [x30; x08; x05; x00; x05; x00; x04; x02; x30; x00]
     = Throw e').
Proof.
  split; [|split; [|split; [|split; [|split]]]].
  - exact (proj1 (proj2 decode_is_positional) [x02; x01; x00] x02 [x00]
             eq_refl).
  - apply (proj1 (proj2 (proj2 decode_is_positional))
             [x30; x03; x02; x01; x00] x30 [ASN1.Primitive x02 [x00]]
             eq_refl).
    cbn [List.length]. lia.
  - exact (proj1 (proj2 (proj2 (proj2 decode_is_positional))) otherTags
             [] [x01] [] [xff; x01] [x0a] [x0b] x04 [x12; x34] [x56; x78]
             [x7f; x02] [xdd; xee]
             [x31; x07; x04; x01; x01; x02; x02; xdd; xee]
             mistaggedEncoding eq_refl eq_refl eq_refl eq_refl eq_refl).
  - eapply (proj1 (proj2 (proj2 (proj2 (proj2 decode_is_positional))))
              truncatedEncoding _ [1; 1; 4] INVALID_INDEX).
    + vm_compute. reflexivity.
    + cbn. tauto.
    + reflexivity.
  - eapply (proj1 (proj2 (proj2 (proj2 (proj2 (proj2 decode_is_positional)))))
              [x30; x06; x05; x00; x05; x00; x04; x00] [] _ INVALID_DATA).
    + vm_compute. reflexivity.
    + reflexivity.
    + reflexivity.
  - eapply (proj1 (proj2 (proj2 (proj2 (proj2 (proj2
              (proj2 decode_is_positional))))))
              [x30; x08; x05; x00; x05; x00; x04; x02; x30; x00]
              [x30; x00] _ _ INVALID_INDEX).
    + vm_compute. reflexivity.
    + reflexivity.
    + vm_compute. reflexivity.
    + reflexivity.
Defined.

(** C10 as stated fails: an input with SET for every SEQUENCE, NULL for the
    object identifiers and INTEGER exchanged with OCTET STRING does not
    match the schema, and is decoded into a key without any error; the
    encoding of [sampleKey] does match the schema. *)
Lemma decode_mistagged_counterexample :
  (exists root,
     ASN1.parse sampleEncoding = Ok root /\ matchesSchema root = true) /\
  exists root key,
    ASN1.parse mistaggedEncoding = Ok root /\
    matchesSchema root = false /\
    decodeKeyFromPKCS8Format mistaggedEncoding = Ok key /\
    getComponent key ECC_D = Ok [xdd; xee] /\
    getComponent key ECC_P = Ok [xff; x01].
Proof.
  split.
  - eexists. split; [vm_compute; reflexivity|]. vm_compute. reflexivity.
  - eexists _, _. split; [vm_compute; reflexivity|].
    split; [vm_compute; reflexivity|].
    split; [vm_compute; reflexivity|].
    split; reflexivity.
Qed.

(* ================================================================== *)
(** * Further properties of the code *)

(** ** Point codec *)

(** X1: decoding a point of any marker octet followed by an even number
    of octets and encoding the two coordinates again gives the same
    octets behind the marker 0x04: the marker is normalised, nothing else
    changes. *)
Theorem encode_decode_point (m : byte) (r : ByteString.t) :
  Nat.Even (List.length r) ->
  (c <- decodeUncompressedECPoint (m :: r) ;;
   encodeUncompressedECPoint (x c) (y c))
  = Ok (x04 :: r).
Proof.
  intros Hev. rewrite decodeUncompressedECPoint_cons. cbn [bind x y].
  rewrite encodeUncompressedECPoint_eq. do 2 f_equal.
  now apply halves_even.
Qed.

Lemma encode_decode_point_witness :
  (c <- decodeUncompressedECPoint [xff; x12; x34; x56; x78] ;;
   encodeUncompressedECPoint (x c) (y c))
  = Ok [x04; x12; x34; x56; x78].
Proof.
  apply (encode_decode_point xff [x12; x34; x56; x78]).
  exists 2%nat. reflexivity.
Defined.

(** X2: among coordinates of equal width the point encoding is
    injective: two pairs with the same encoding are the same pair. *)
Theorem encodeUncompressedECPoint_injective
    (x1 y1 x2 y2 : ByteString.t) :
  List.length x1 = List.length y1 ->
  List.length x2 = List.length y2 ->
  encodeUncompressedECPoint x1 y1 = encodeUncompressedECPoint x2 y2 ->
  x1 = x2 /\ y1 = y2.
Proof.
  intros H1 H2. rewrite !encodeUncompressedECPoint_eq. intros [= E].
  assert (Hlen : List.length x1 = List.length x2).
  { apply (f_equal (@List.length byte)) in E.
    rewrite !length_app in E. lia. }
  split.
  - apply (f_equal (firstn (List.length x1))) in E.
    rewrite firstn_app, Nat.sub_diag, firstn_all, firstn_O, app_nil_r in E.
    rewrite Hlen in E.
    now rewrite firstn_app, Nat.sub_diag, firstn_all, firstn_O,
      app_nil_r in E.
  - apply (f_equal (skipn (List.length x1))) in E.
    rewrite skipn_app, Nat.sub_diag, skipn_all, skipn_O in E.
    rewrite Hlen in E.
    now rewrite skipn_app, Nat.sub_diag, skipn_all, skipn_O in E.
Qed.

Lemma encodeUncompressedECPoint_injective_witness :
  [x12; x34] = [x12; x34] /\ [x56; x78] = [x56; x78].
Proof.
  exact (encodeUncompressedECPoint_injective
           [x12; x34] [x56; x78] [x12; x34] [x56; x78]
           eq_refl eq_refl eq_refl).
Defined.

(** ** Leading zeros and the value of a byte sequence *)

Lemma unsignedValue_acc (s : ByteString.t) (acc : N) :
  fold_left (fun acc b => (256 * acc + Byte.to_N b)%N) s acc
  = (acc * 256 ^ N.of_nat (List.length s) + unsignedValue s)%N.
Proof.
  unfold unsignedValue. revert acc.
  induction s as [|b r IH]; intros acc.
  - cbn. lia.
  - cbn [fold_left List.length]. rewrite IH, (IH (256 * 0 + Byte.to_N b)%N).
    rewrite Nat2N.inj_succ, N.pow_succ_r'. lia.
Qed.

Lemma unsignedValue_cons (b : byte) (r : ByteString.t) :
  unsignedValue (b :: r)
  = (Byte.to_N b * 256 ^ N.of_nat (List.length r) + unsignedValue r)%N.
Proof.
  unfold unsignedValue at 1. cbn [fold_left].
  rewrite unsignedValue_acc. lia.
Qed.

Lemma unsignedValue_lt (s : ByteString.t) :
  (unsignedValue s < 256 ^ N.of_nat (List.length s))%N.
Proof.
  induction s as [|b r IH]; [cbn; lia|].
  rewrite unsignedValue_cons. cbn [List.length].
  rewrite Nat2N.inj_succ, N.pow_succ_r'.
  pose proof (Byte.to_N_bounded b). nia.
Qed.

Lemma unsignedValue_dropZeros (s : ByteString.t) :
  unsignedValue (dropZeros s) = unsignedValue s.
Proof.
  induction s as [|b r IH]; [reflexivity|].
  cbn [dropZeros]. destruct (Byte.eqb b x00) eqn:E; [|reflexivity].
  apply Byte.byte_dec_bl in E. subst b.
  rewrite IH, unsignedValue_cons. cbn. lia.
Qed.

(** X3: [stripLeadingZeros] is idempotent: stripping what it returned
    changes nothing. *)
Theorem stripLeadingZeros_idempotent (value : ByteString.t) :
  (s <- stripLeadingZeros value ;; stripLeadingZeros s)
  = stripLeadingZeros value.
Proof.
  rewrite stripLeadingZeros_eq. cbn [bind].
  now rewrite stripLeadingZeros_eq, dropZeros_idem.
Qed.

(** X4: [stripLeadingZeros] keeps the number: its result stands for the
    same unsigned big-endian integer as its argument. *)
Theorem stripLeadingZeros_value (value : ByteString.t) :
  exists s,
    stripLeadingZeros value = Ok s /\
    unsignedValue s = unsignedValue value.
Proof.
  exists (dropZeros value).
  split; [apply stripLeadingZeros_eq | apply unsignedValue_dropZeros].
Qed.

(** X5: the result of [stripLeadingZeros] is the shortest byte sequence
    of its value: no byte sequence standing for the same unsigned integer
    is shorter. *)
Theorem stripLeadingZeros_shortest (value other : ByteString.t) :
  unsignedValue other = unsignedValue value ->
  exists s,
    stripLeadingZeros value = Ok s /\
    (List.length s <= List.length other)%nat.
Proof.
  intros Hv. exists (dropZeros value).
  split; [apply stripLeadingZeros_eq|].
  rewrite <- (unsignedValue_dropZeros value) in Hv.
  assert (Hhd : forall b r, dropZeros value = b :: r -> b <> x00).
  { clear. induction value as [|b0 r0 IH]; intros b r; [discriminate|].
    cbn [dropZeros]. destruct (Byte.eqb b0 x00) eqn:E; [apply IH|].
    intros [= -> _] ->. discriminate E. }
  destruct (dropZeros value) as [|b r]; [cbn; lia|].
  specialize (Hhd b r eq_refl).
  assert (Hb : (1 <= Byte.to_N b)%N).
  { destruct (N.eq_dec (Byte.to_N b) 0) as [E|E]; [|lia].
    exfalso. apply Hhd.
    apply (f_equal Byte.of_N) in E. rewrite Byte.of_to_N in E.
    now injection E. }
  pose proof (unsignedValue_lt other) as Hlt.
  rewrite Hv, unsignedValue_cons in Hlt.
  destruct (Nat.le_gt_cases (List.length (b :: r)) (List.length other))
    as [Hle|Hgt]; [exact Hle|exfalso].
  cbn [List.length] in Hgt.
  assert (Hpow : (256 ^ N.of_nat (List.length other)
                  <= 256 ^ N.of_nat (List.length r))%N)
    by (apply N.pow_le_mono_r; lia).
  nia.
Qed.

Lemma stripLeadingZeros_shortest_witness :
  exists s,
    stripLeadingZeros [x00; x00; x01; xff] = Ok s /\
    (List.length s <= List.length [x00; x01; xff])%nat.
Proof.
  exact (stripLeadingZeros_shortest [x00; x00; x01; xff] [x00; x01; xff]
           eq_refl).
Defined.

(** ** The output of the encoder *)

Lemma unsignedValue_signPadded (s : ByteString.t) :
  unsignedValue (signPadded s) = unsignedValue s.
Proof.
  destruct s as [|b r]; [reflexivity|].
  cbn [signPadded]. destruct (N.testbit (Byte.to_N b) 7); [|reflexivity].
  rewrite (unsignedValue_cons x00). cbn. lia.
Qed.

Lemma signedValue_signPadded (s : ByteString.t) :
  signedValue (signPadded s) = Z.of_N (unsignedValue s).
Proof.
  destruct s as [|b r]; [reflexivity|].
  cbn [signPadded]. destruct (N.testbit (Byte.to_N b) 7) eqn:E.
  - cbn [signedValue]. change (N.testbit (Byte.to_N x00) 7) with false.
    cbv iota. f_equal.
  - cbn [signedValue]. now rewrite E.
Qed.

(** X6: read as DER integers (two's complement), the INTEGER fields of P
    and N in the output of [encodeKeyUsingPKCS8Format] are the unsigned
    numbers the key holds as P and N; neither is ever negative. *)
Theorem encoded_P_and_N_values (key : Key.t) (out p n : ByteString.t) :
  encodeKeyUsingPKCS8Format key = Ok out ->
  getComponent key ECC_P = Ok p ->
  getComponent key ECC_N = Ok n ->
  exists root vp vn,
    ASN1.parse out = Ok root /\
    nodeAt root [1; 1; 1; 1] = Ok (ASN1.Primitive ASN1.INTEGER vp) /\
    nodeAt root [1; 1; 4] = Ok (ASN1.Primitive ASN1.INTEGER vn) /\
    signedValue vp = Z.of_N (unsignedValue p) /\
    signedValue vn = Z.of_N (unsignedValue n).
Proof.
  intros H HP HN.
  destruct (encode_Ok key out H)
    as (h & p' & a & b & gx & gy & n' & d & block & _ & _ & EP & _ & _
        & _ & _ & EN & _ & _ & _ & _ & _ & _ & Hparse).
  unfold getComponent in HP, HN. rewrite EP in HP. rewrite EN in HN.
  injection HP as <-. injection HN as <-.
  eexists _, (signPadded p'), (signPadded n').
  split; [exact Hparse|].
  split; [reflexivity|]. split; [reflexivity|].
  split; apply signedValue_signPadded.
Qed.

Lemma encoded_P_and_N_values_witness :
  exists root vp vn,
    ASN1.parse sampleEncoding = Ok root /\
    nodeAt root [1; 1; 1; 1] = Ok (ASN1.Primitive ASN1.INTEGER vp) /\
    nodeAt root [1; 1; 4] = Ok (ASN1.Primitive ASN1.INTEGER vn) /\
    signedValue vp = Z.of_N (unsignedValue [xff; x01]) /\
    signedValue vn = Z.of_N (unsignedValue [x7f; x02]).
Proof.
  exact (encoded_P_and_N_values sampleKey sampleEncoding
           [xff; x01] [x7f; x02] eq_refl eq_refl eq_refl).
Defined.

(** X7: every output of [encodeKeyUsingPKCS8Format] is one node with
    nothing after it, and that node has the shape of the schema: the
    number of children, the nesting and the tag of every node, down to the
    ECPrivateKey sequence inside the private-key block. *)
Theorem encoded_matches_schema (key : Key.t) (out : ByteString.t) :
  encodeKeyUsingPKCS8Format key = Ok out ->
  exists root,
    ASN1.parseTLV (List.length out) out = Some (root, []) /\
    ASN1.parse out = Ok root /\
    matchesSchema root = true.
Proof.
  intros H.
  destruct (encode_Ok key out H)
    as (h & p & a & b & gx & gy & n & d & block & _ & _ & _ & _ & _
        & _ & _ & _ & _ & _ & _ & _ & Hb & Hout & Hparse).
  eexists. split; [|split]. 2: exact Hparse.
  - rewrite <- (app_nil_r out) at 2.
    apply parseTLV_getBytes;
      [reflexivity | exact Hout | exact (depth_le_length _ _ Hout)].
  - pose proof (parse_getBytes (shapedKey schemaTags d) block eq_refl Hb)
      as Hblock.
    cbv [matchesSchema shaped]. rewrite Hblock. reflexivity.
Qed.

Lemma encoded_matches_schema_witness :
  exists root,
    ASN1.parseTLV (List.length sampleEncoding) sampleEncoding
    = Some (root, []) /\
    ASN1.parse sampleEncoding = Ok root /\
    matchesSchema root = true.
Proof. exact (encoded_matches_schema sampleKey sampleEncoding eq_refl). Defined.

(** X8: in every output of [encodeKeyUsingPKCS8Format] the version is
    the INTEGER 0, the algorithm is the object identifier
    1.2.840.10045.2.1 (2A 86 48 CE 3D 02 01), the field type is
    1.2.840.10045.1.1 (2A 86 48 CE 3D 01 01), the base point is the OCTET
    STRING 04 || GX || GY, and the private-key block is an OCTET STRING
    whose value is the encoding of the sequence of the INTEGER 1 and the
    OCTET STRING D. *)
Theorem encoded_fixed_fields (key : Key.t) (out gx gy d : ByteString.t) :
  encodeKeyUsingPKCS8Format key = Ok out ->
  getComponent key ECC_GX = Ok gx ->
  getComponent key ECC_GY = Ok gy ->
  getComponent key ECC_D = Ok d ->
  exists root block,
    ASN1.parse out = Ok root /\
    nodeAt root [0] = Ok (ASN1.Primitive ASN1.INTEGER [x00]) /\
    nodeAt root [1; 0]
    = Ok (ASN1.Primitive ASN1.OBJECT_IDENTIFIER
            [x2a; x86; x48; xce; x3d; x02; x01]) /\
    nodeAt root [1; 1; 1; 0]
    = Ok (ASN1.Primitive ASN1.OBJECT_IDENTIFIER
            [x2a; x86; x48; xce; x3d; x01; x01]) /\
    nodeAt root [1; 1; 3]
    = Ok (ASN1.Primitive ASN1.OCTET_STRING ([x04] ++ gx ++ gy)) /\
    nodeAt root [2] = Ok (ASN1.Primitive ASN1.OCTET_STRING block) /\
    ASN1.parse block
    = Ok (ASN1.Constructed ASN1.SEQUENCE
            [ASN1.Primitive ASN1.INTEGER [x01];
             ASN1.Primitive ASN1.OCTET_STRING d]).
Proof.
  intros H HGX HGY HD.
  destruct (encode_Ok key out H)
    as (h & p & a & b & gx' & gy' & n & d' & block & _ & _ & _ & _ & _
        & EGX & EGY & _ & ED & _ & _ & _ & Hb & _ & Hparse).
  unfold getComponent in HGX, HGY, HD.
  rewrite EGX in HGX. rewrite EGY in HGY. rewrite ED in HD.
  injection HGX as <-. injection HGY as <-. injection HD as <-.
  eexists _, block. split; [exact Hparse|].
  repeat (split; [reflexivity|]).
  exact (parse_getBytes (shapedKey schemaTags d') block eq_refl Hb).
Qed.

Lemma encoded_fixed_fields_witness :
  exists root block,
    ASN1.parse sampleEncoding = Ok root /\
    nodeAt root [0] = Ok (ASN1.Primitive ASN1.INTEGER [x00]) /\
    nodeAt root [1; 0]
    = Ok (ASN1.Primitive ASN1.OBJECT_IDENTIFIER
            [x2a; x86; x48; xce; x3d; x02; x01]) /\
    nodeAt root [1; 1; 1; 0]
    = Ok (ASN1.Primitive ASN1.OBJECT_IDENTIFIER
            [x2a; x86; x48; xce; x3d; x01; x01]) /\
    nodeAt root [1; 1; 3]
    = Ok (ASN1.Primitive ASN1.OCTET_STRING
            ([x04] ++ [x12; x34] ++ [x56; x78])) /\
    nodeAt root [2] = Ok (ASN1.Primitive ASN1.OCTET_STRING block) /\
    ASN1.parse block
    = Ok (ASN1.Constructed ASN1.SEQUENCE
            [ASN1.Primitive ASN1.INTEGER [x01];
             ASN1.Primitive ASN1.OCTET_STRING [xdd; xee]]).
Proof.
  exact (encoded_fixed_fields sampleKey sampleEncoding
           [x12; x34] [x56; x78] [xdd; xee] eq_refl eq_refl eq_refl eq_refl).
Defined.

(** X9: [encodeKeyUsingPKCS8Format] looks at the kind of the key and at
    the eight components H, P, A, B, GX, GY, N and D only: two keys that
    agree on these have the same result, whatever else they hold (a curve
    object identifier, for one). *)
Theorem encode_reads_eight_components (key1 key2 : Key.t) :
  getType key1 = getType key2 ->
  (forall c, In c codecComponents ->
     getComponent key1 c = getComponent key2 c) ->
  encodeKeyUsingPKCS8Format key1 = encodeKeyUsingPKCS8Format key2.
Proof.
  intros Ht Hc.
  assert (E : privateKeyInfo key1 = privateKeyInfo key2).
  { unfold privateKeyInfo, hasType. rewrite Ht.
    rewrite (Hc ECC_H), (Hc ECC_P), (Hc ECC_A), (Hc ECC_B),
      (Hc ECC_GX), (Hc ECC_GY), (Hc ECC_N), (Hc ECC_D);
      [reflexivity | cbn; tauto ..]. }
  unfold encodeKeyUsingPKCS8Format. now rewrite E.
Qed.

Lemma encode_reads_eight_components_witness :
  encodeKeyUsingPKCS8Format
    (setComponent sampleKey ECC_CURVE_OID (ByteString.ofOID brainpoolP256r1))
  = encodeKeyUsingPKCS8Format sampleKey.
Proof.
  apply encode_reads_eight_components; [reflexivity|].
  intros c Hc. cbn in Hc.
  repeat (destruct Hc as [<-|Hc]; [reflexivity|]). contradiction.
Defined.

(** X10: the encoding determines the key it was made from: two keys with
    the same output have the same D, A and B, the same octets GX || GY,
    and the same numbers H, P and N. *)
Theorem encode_determines_key (key1 key2 : Key.t) (out : ByteString.t) :
  encodeKeyUsingPKCS8Format key1 = Ok out ->
  encodeKeyUsingPKCS8Format key2 = Ok out ->
  sameComponent key1 key2 ECC_D /\
  sameComponent key1 key2 ECC_A /\
  sameComponent key1 key2 ECC_B /\
  (exists gx1 gy1 gx2 gy2,
     getComponent key1 ECC_GX = Ok gx1 /\ getComponent key1 ECC_GY = Ok gy1 /\
     getComponent key2 ECC_GX = Ok gx2 /\ getComponent key2 ECC_GY = Ok gy2 /\
     gx1 ++ gy1 = gx2 ++ gy2) /\
  (forall c, In c [ECC_H; ECC_P; ECC_N] ->
     exists v1 v2,
       getComponent key1 c = Ok v1 /\ getComponent key2 c = Ok v2 /\
       unsignedValue v1 = unsignedValue v2).
Proof.
  intros H1 H2.
  destruct (encode_Ok key1 out H1)
    as (h1 & p1 & a1 & b1 & gx1 & gy1 & n1 & d1 & block1 & _ & EH1 & EP1
        & EA1 & EB1 & EGX1 & EGY1 & EN1 & ED1 & _ & _ & _ & Hb1 & _ & Hp1).
  destruct (encode_Ok key2 out H2)
    as (h2 & p2 & a2 & b2 & gx2 & gy2 & n2 & d2 & block2 & _ & EH2 & EP2
        & EA2 & EB2 & EGX2 & EGY2 & EN2 & ED2 & _ & _ & _ & Hb2 & _ & Hp2).
  rewrite Hp1 in Hp2. unfold shaped in Hp2.
  injection Hp2 as Eh Ep Ea Eb Eg En Eblock.
  subst a2 b2 block2.
  pose proof (parse_getBytes _ _ (eq_refl : canonical (shapedKey schemaTags d1)
                                            = true) Hb1) as Q1.
  pose proof (parse_getBytes _ _ (eq_refl : canonical (shapedKey schemaTags d2)
                                            = true) Hb2) as Q2.
  rewrite Q1 in Q2. unfold shapedKey in Q2. injection Q2 as <-.
  unfold sameComponent, getComponent.
  rewrite EA1, EB1, EGX1, EGY1, ED1, EA2, EB2, EGX2, EGY2, ED2.
  repeat (split; [eexists; split; reflexivity|]).
  split.
  - exists gx1, gy1, gx2, gy2. repeat (split; [reflexivity|]).
    exact Eg.
  - intros c [<-|[<-|[<-|[]]]].
    + rewrite EH1, EH2. exists h1, h2. repeat (split; [reflexivity|]).
      now rewrite <- (unsignedValue_dropZeros h1), Eh, unsignedValue_dropZeros.
    + rewrite EP1, EP2. exists p1, p2. repeat (split; [reflexivity|]).
      now rewrite <- (unsignedValue_signPadded p1), Ep,
        unsignedValue_signPadded.
    + rewrite EN1, EN2. exists n1, n2. repeat (split; [reflexivity|]).
      now rewrite <- (unsignedValue_signPadded n1), En,
        unsignedValue_signPadded.
Qed.

Lemma encode_determines_key_witness :
  sameComponent sampleKey
    (setComponent sampleKey ECC_H [x01]) ECC_D /\
  sameComponent sampleKey (setComponent sampleKey ECC_H [x01]) ECC_A /\
  sameComponent sampleKey (setComponent sampleKey ECC_H [x01]) ECC_B /\
  (exists gx1 gy1 gx2 gy2,
     getComponent sampleKey ECC_GX = Ok gx1 /\
     getComponent sampleKey ECC_GY = Ok gy1 /\
     getComponent (setComponent sampleKey ECC_H [x01]) ECC_GX = Ok gx2 /\
     getComponent (setComponent sampleKey ECC_H [x01]) ECC_GY = Ok gy2 /\
     gx1 ++ gy1 = gx2 ++ gy2) /\
  (forall c, In c [ECC_H; ECC_P; ECC_N] ->
     exists v1 v2,
       getComponent sampleKey c = Ok v1 /\
       getComponent (setComponent sampleKey ECC_H [x01]) c = Ok v2 /\
       unsignedValue v1 = unsignedValue v2).
Proof.
  exact (encode_determines_key sampleKey
           (setComponent sampleKey ECC_H [x01]) sampleEncoding
           eq_refl eq_refl).
Defined.

(** ** The decoder on arbitrary input *)

Lemma decodeUncompressedECPoint_nil :
  decodeUncompressedECPoint [] = Throw INVALID_INDEX.
Proof. reflexivity. Qed.

Lemma halves_width (r : ByteString.t) :
  let w := Z.to_nat (Z.of_nat (List.length r) / 2) in
  List.length (firstn w r) = w /\ List.length (firstn w (skipn w r)) = w.
Proof.
  intros w.
  assert (Hw : (2 * w <= List.length r)%nat).
  { unfold w. lia_div. }
  rewrite !length_firstn, length_skipn. lia.
Qed.

(** Whatever [decodeKeyFromPKCS8Format] returns is a key filled with
    eight values, the two coordinates being slices of one width. *)
Lemma decode_Ok (input : ByteString.t) (key : Key.t) :
  decodeKeyFromPKCS8Format input = Ok key ->
  exists d h p a b gx gy n,
    key = privateKeyWith d h p a b gx gy n /\
    List.length gx = List.length gy.
Proof.
  unfold decodeKeyFromPKCS8Format. intros H. inv_binds.
  injection H as <-.
  match goal with
  | E : decodeUncompressedECPoint ?g = Ok ?c |- _ =>
      destruct g as [|m r];
      [rewrite decodeUncompressedECPoint_nil in E; discriminate E|];
      rewrite decodeUncompressedECPoint_cons in E; injection E as <-
  end.
  cbn [x y].
  eexists _, _, _, _, _, _, _, _. split; [reflexivity|].
  destruct (halves_width r) as [Hx Hy]. cbv zeta in Hx, Hy.
  now rewrite Hx, Hy.
Qed.

(** X11: whatever the input, a key returned by
    [decodeKeyFromPKCS8Format] is PRIVATE, holds the eight components D,
    H, P, A, B, GX, GY and N and no other (no curve identifier), and its
    GX and GY have the same width. *)
Theorem decoded_key_shape (input : ByteString.t) (key : Key.t) :
  decodeKeyFromPKCS8Format input = Ok key ->
  getType key = Some PRIVATE /\
  (forall c, (exists v, getComponent key c = Ok v)
             <-> In c codecComponents) /\
  exists gx gy,
    getComponent key ECC_GX = Ok gx /\
    getComponent key ECC_GY = Ok gy /\
    List.length gx = List.length gy.
Proof.
  intros H.
  destruct (decode_Ok input key H)
    as (d & h & p & a & b & gx & gy & n & -> & Hw).
  split; [reflexivity|]. split.
  - intros c. destruct c;
      (split;
       [ first [ intros _; cbn; tauto | intros [v Hv]; discriminate Hv ]
       | first [ intros _; eexists; reflexivity
               | intros Hin; cbn in Hin;
                 repeat (destruct Hin as [Hin|Hin]; [discriminate Hin|]);
                 contradiction ] ]).
  - exists gx, gy. split; [reflexivity|]. split; [reflexivity | exact Hw].
Qed.

Lemma decoded_key_shape_witness :
  getType (privateKeyWith [xdd; xee] [x01] [xff; x01] [x0a] [x0b]
             [x12; x34] [x56; x78] [x7f; x02]) = Some PRIVATE /\
  (forall c,
     (exists v,
        getComponent
          (privateKeyWith [xdd; xee] [x01] [xff; x01] [x0a] [x0b]
             [x12; x34] [x56; x78] [x7f; x02]) c = Ok v)
     <-> In c codecComponents) /\
  exists gx gy,
    getComponent
      (privateKeyWith [xdd; xee] [x01] [xff; x01] [x0a] [x0b]
         [x12; x34] [x56; x78] [x7f; x02]) ECC_GX = Ok gx /\
    getComponent
      (privateKeyWith [xdd; xee] [x01] [xff; x01] [x0a] [x0b]
         [x12; x34] [x56; x78] [x7f; x02]) ECC_GY = Ok gy /\
    List.length gx = List.length gy.
Proof. exact (decoded_key_shape mistaggedEncoding _ eq_refl). Defined.

(** X12: [decodeKeyFromPKCS8Format] does not look past the children it
    visits: further children at the end of any sequence of the input, and
    at the end of the ECPrivateKey sequence, leave the decoded key
    unchanged. *)
Theorem decode_ignores_surplus_children
    (tg : nat -> byte) (oid1 h oid2 p a b : ByteString.t) (m : byte)
    (gx gy n d block input : ByteString.t)
    (e0 e1 e2 e3 e4 e5 : list ASN1.t) :
  canonical (shapedLoose tg oid1 h oid2 p a b (m :: gx ++ gy) n block
               e0 e1 e2 e3 e4) = true ->
  canonical (shapedKeyLoose tg d e5) = true ->
  ASN1.getBytes (shapedKeyLoose tg d e5) = Ok block ->
  ASN1.getBytes (shapedLoose tg oid1 h oid2 p a b (m :: gx ++ gy) n block
                   e0 e1 e2 e3 e4) = Ok input ->
  List.length gx = List.length gy ->
  decodeKeyFromPKCS8Format input = Ok (privateKeyWith d h p a b gx gy n).
Proof.
  intros Hcan Hcan' Hblock Hinput Hw.
  unfold decodeKeyFromPKCS8Format.
  rewrite (parse_getBytes _ _ Hcan Hinput). cbn [bind].
  change (ASN1.get (shapedLoose tg oid1 h oid2 p a b (m :: gx ++ gy) n block
                      e0 e1 e2 e3 e4) 2)
    with (Ok (ASN1.Primitive (tg 14%nat) block)).
  cbn [bind ASN1.value].
  rewrite (parse_getBytes _ _ Hcan' Hblock). cbn [bind].
  unfold shapedLoose, shapedKeyLoose.
  repeat (simpl (ASN1.get _ _); cbn [bind ASN1.value]).
  rewrite decodeUncompressedECPoint_halves by exact Hw. cbn [bind].
  repeat (simpl (ASN1.get _ _); cbn [bind ASN1.value]).
  reflexivity.
Qed.

Lemma decode_ignores_surplus_children_witness :
  decodeKeyFromPKCS8Format
    (hex ("303302010030220600301C0201013005060002017F30060401010401010403"
          ++ "04123402010105000500040A300802010104010D0500"))
  = Ok (privateKeyWith [x0d] [x01] [x7f] [x01] [x01] [x12] [x34] [x01]).
Proof.
  apply (decode_ignores_surplus_children schemaTags [] [x01] [] [x7f]
           [x01] [x01] x04 [x12] [x34] [x01] [x0d]
           [x30; x08; x02; x01; x01; x04; x01; x0d; x05; x00]
           _ [] [ASN1.Primitive x05 []] [ASN1.Primitive x05 []] [] []
           [ASN1.Primitive x05 []]);
    reflexivity.
Defined.

(** ** The self-test *)

Lemma equals_refl (s : ByteString.t) : ByteString.equals s s = true.
Proof.
  unfold ByteString.equals.
  destruct (list_eq_dec Byte.byte_eq_dec s s); [reflexivity | contradiction].
Qed.

Lemma equals_true (s1 s2 : ByteString.t) :
  ByteString.equals s1 s2 = true -> s1 = s2.
Proof.
  unfold ByteString.equals.
  destruct (list_eq_dec Byte.byte_eq_dec s1 s2); [auto | discriminate].
Qed.

Lemma encode_privateKeyWith (d h p a b gx gy n : ByteString.t) :
  p <> [] -> n <> [] ->
  encodeKeyUsingPKCS8Format (privateKeyWith d h p a b gx gy n)
  = ASN1.getBytes (assembled (dropZeros h) (signPadded p) a b
                     (x04 :: gx ++ gy) (signPadded n) d).
Proof.
  intros Hp Hn. unfold encodeKeyUsingPKCS8Format.
  now rewrite (privateKeyInfo_present _ h p a b gx gy n d).
Qed.

(** Two slices of the decoder that are the two coordinates themselves
    have one width. *)
Lemma halves_are_coordinates (gx gy : ByteString.t) :
  let w := Z.to_nat (Z.of_nat (List.length (gx ++ gy)) / 2) in
  firstn w (gx ++ gy) = gx ->
  firstn w (skipn w (gx ++ gy)) = gy ->
  List.length gx = List.length gy.
Proof.
  intros w Hx Hy.
  destruct (halves_width (gx ++ gy)) as [Lx Ly]. fold w in Lx, Ly.
  rewrite Hx in Lx. rewrite Hy in Ly. lia.
Qed.

(** X13: [PKCS8.test] passes all six assertions whenever key generation
    leaves a private key that the encoder accepts and whose GX and GY have
    the same width, and a public key with the same A and B. *)
Theorem test_passes
    (generateKeyPair : Key.t -> Key.t -> result (Key.t * Key.t))
    (pubKey priKey : Key.t) (out gx gy a b : ByteString.t) :
  generateKeyPair
    (setComponent (setType Key.new PUBLIC) ECC_CURVE_OID
       (ByteString.ofOID brainpoolP256r1))
    (setComponent (setType Key.new PRIVATE) ECC_CURVE_OID
       (ByteString.ofOID brainpoolP256r1))
  = Ok (pubKey, priKey) ->
  encodeKeyUsingPKCS8Format priKey = Ok out ->
  getComponent priKey ECC_GX = Ok gx ->
  getComponent priKey ECC_GY = Ok gy ->
  List.length gx = List.length gy ->
  getComponent priKey ECC_A = Ok a -> getComponent pubKey ECC_A = Ok a ->
  getComponent priKey ECC_B = Ok b -> getComponent pubKey ECC_B = Ok b ->
  test generateKeyPair = Ok tt.
Proof.
  intros Hgen Henc HGX HGY Hw HA HA' HB HB'.
  destruct (decode_encode priKey out Henc)
    as (h & p & a0 & b0 & gx0 & gy0 & n & d & EH & EP & EA & EB & EGX & EGY
        & EN & ED & Hp & Hn & Hasm & Hdec).
  unfold getComponent in HGX, HGY, HA, HB.
  rewrite EGX in HGX. rewrite EGY in HGY. rewrite EA in HA. rewrite EB in HB.
  injection HGX as ->. injection HGY as ->.
  injection HA as ->. injection HB as ->.
  destruct (halves_same_width gx gy Hw) as [Hx Hy].
  cbv zeta in Hdec, Hx, Hy. rewrite Hx, Hy in Hdec.
  unfold test. rewrite Hgen. cbn [bind fst snd].
  rewrite Henc. cbn [bind]. rewrite Hdec. cbn [bind].
  rewrite HA', HB'.
  rewrite encode_privateKeyWith by now apply signPadded_nonempty.
  rewrite dropZeros_idem, !signPadded_idem, Hasm.
  unfold getComponent at 2 4 6. rewrite ED, EGX, EGY.
  change (getComponent (privateKeyWith _ _ _ _ _ _ _ _) ECC_D) with (Ok d).
  change (getComponent (privateKeyWith _ _ _ _ _ _ _ _) ECC_GX) with (Ok gx).
  change (getComponent (privateKeyWith _ _ _ _ _ _ _ _) ECC_GY) with (Ok gy).
  change (getComponent (privateKeyWith _ _ _ _ _ _ _ _) ECC_A) with (Ok a).
  change (getComponent (privateKeyWith _ _ _ _ _ _ _ _) ECC_B) with (Ok b).
  cbn [bind]. now rewrite !equals_refl.
Qed.

Lemma test_passes_witness :
  test (fun _ _ => Ok (samplePublicKey, sampleKey)) = Ok tt.
Proof.
  exact (test_passes (fun _ _ => Ok (samplePublicKey, sampleKey))
           samplePublicKey sampleKey sampleEncoding
           [x12; x34] [x56; x78] [x0a] [x0b]
           eq_refl eq_refl eq_refl eq_refl eq_refl
           eq_refl eq_refl eq_refl eq_refl).
Defined.

(** X14: [PKCS8.test] stops with a failed assertion whenever key
    generation leaves a private key that the encoder accepts and whose GX
    and GY differ in width: the comparison of GX or that of GY fails. *)
Theorem test_detects_uneven_coordinates
    (generateKeyPair : Key.t -> Key.t -> result (Key.t * Key.t))
    (pubKey priKey : Key.t) (out gx gy : ByteString.t) :
  generateKeyPair
    (setComponent (setType Key.new PUBLIC) ECC_CURVE_OID
       (ByteString.ofOID brainpoolP256r1))
    (setComponent (setType Key.new PRIVATE) ECC_CURVE_OID
       (ByteString.ofOID brainpoolP256r1))
  = Ok (pubKey, priKey) ->
  encodeKeyUsingPKCS8Format priKey = Ok out ->
  getComponent priKey ECC_GX = Ok gx ->
  getComponent priKey ECC_GY = Ok gy ->
  List.length gx <> List.length gy ->
  test generateKeyPair = Throw ASSERTION_FAILED.
Proof.
  intros Hgen Henc HGX HGY Hw.
  destruct (decode_encode priKey out Henc)
    as (h & p & a & b & gx0 & gy0 & n & d & EH & EP & EA & EB & EGX & EGY
        & EN & ED & Hp & Hn & Hasm & Hdec).
  unfold getComponent in HGX, HGY.
  rewrite EGX in HGX. rewrite EGY in HGY.
  injection HGX as ->. injection HGY as ->.
  cbv zeta in Hdec.
  unfold test. rewrite Hgen. cbn [bind fst snd].
  rewrite Henc. cbn [bind]. rewrite Hdec. cbn [bind].
  unfold getComponent at 2 4 6. rewrite ED, EGX, EGY.
  change (getComponent (privateKeyWith _ _ _ _ _ _ _ _) ECC_D) with (Ok d).
  match goal with
  | |- context [getComponent (privateKeyWith _ _ _ _ _ ?sx ?sy _) ECC_GX] =>
      change (getComponent (privateKeyWith d (dropZeros h) (signPadded p) a b
                              sx sy (signPadded n)) ECC_GX) with (Ok sx);
      change (getComponent (privateKeyWith d (dropZeros h) (signPadded p) a b
                              sx sy (signPadded n)) ECC_GY) with (Ok sy);
      cbn [bind]; rewrite equals_refl; cbn [assert bind];
      destruct (ByteString.equals sx gx) eqn:Ex; [|reflexivity];
      cbn [assert bind];
      destruct (ByteString.equals sy gy) eqn:Ey; [|reflexivity]
  end.
  exfalso. apply Hw.
  apply equals_true in Ex, Ey.
  exact (halves_are_coordinates gx gy Ex Ey).
Qed.

Lemma test_detects_uneven_coordinates_witness :
  test (fun _ _ => Ok (samplePublicKey, sampleKeyUneven))
  = Throw ASSERTION_FAILED.
Proof.
  apply (test_detects_uneven_coordinates
           (fun _ _ => Ok (samplePublicKey, sampleKeyUneven))
           samplePublicKey sampleKeyUneven
           (hex ("3040020100303006072A8648CE3D02013025020101300E06072A8648CE3D01"
                 ++ "01020300FF01300604010A04010B040404010203"
                 ++ "02027F02040930070201010402DDEE"))
           [x01] [x02; x03]);
    try reflexivity.
  cbn [List.length]. discriminate.
Defined.

(** ** Decoded keys and the cofactor *)

(** X15: a key decoded from an output of the encoder is reproduced
    exactly by encoding and decoding it again, all eight components
    included, when GX and GY of the original have an even number of
    octets together: decoding after encoding is idempotent. *)
Theorem decoded_key_is_fixed_point
    (key : Key.t) (out gx gy : ByteString.t) :
  encodeKeyUsingPKCS8Format key = Ok out ->
  getComponent key ECC_GX = Ok gx ->
  getComponent key ECC_GY = Ok gy ->
  Nat.Even (List.length gx + List.length gy) ->
  exists key',
    decodeKeyFromPKCS8Format out = Ok key' /\
    (out' <- encodeKeyUsingPKCS8Format key' ;;
     decodeKeyFromPKCS8Format out') = Ok key'.
Proof.
  intros H HGX HGY Hev.
  destruct (decode_encode key out H)
    as (h & p & a & b & gx' & gy' & n & d & EH & EP & EA & EB & EGX & EGY
        & EN & ED & Hp & Hn & Hasm & Hdec).
  unfold getComponent in HGX, HGY. rewrite EGX in HGX. rewrite EGY in HGY.
  injection HGX as ->. injection HGY as ->.
  cbv zeta in Hdec. eexists. split; [exact Hdec|].
  rewrite encode_privateKeyWith by now apply signPadded_nonempty.
  rewrite dropZeros_idem, !signPadded_idem, halves_even
    by now rewrite length_app.
  rewrite Hasm. cbn [bind]. exact Hdec.
Qed.

Lemma decoded_key_is_fixed_point_witness :
  exists key',
    decodeKeyFromPKCS8Format sampleEncoding = Ok key' /\
    (out' <- encodeKeyUsingPKCS8Format key' ;;
     decodeKeyFromPKCS8Format out') = Ok key'.
Proof.
  apply (decoded_key_is_fixed_point sampleKey sampleEncoding
           [x12; x34] [x56; x78]); try reflexivity.
  exists 2%nat. reflexivity.
Defined.

Lemma small_value_no_high_bit (s : ByteString.t) :
  (unsignedValue s < 128)%N ->
  signedValue (dropZeros s) = Z.of_N (unsignedValue s).
Proof.
  intros Hs. rewrite <- (unsignedValue_dropZeros s) in Hs |- *.
  assert (Hhd : forall b r, dropZeros s = b :: r -> b <> x00).
  { clear. induction s as [|b0 r0 IH]; intros b r; [discriminate|].
    cbn [dropZeros]. destruct (Byte.eqb b0 x00) eqn:E; [apply IH|].
    intros [= -> _] ->. discriminate E. }
  destruct (dropZeros s) as [|b r]; [reflexivity|].
  cbn [signedValue]. rewrite highBit_ge.
  replace (128 <=? Z.of_N (Byte.to_N b)) with false; [reflexivity|].
  symmetry. apply Z.leb_gt.
  rewrite unsignedValue_cons in Hs.
  assert (Hpow : (1 <= 256 ^ N.of_nat (List.length r))%N).
  { change 1%N with (256 ^ 0)%N at 1. apply N.pow_le_mono_r; lia. }
  nia.
Qed.

(** X16: the INTEGER of the cofactor in the output of
    [encodeKeyUsingPKCS8Format] stands for the number H of the key when
    read unsigned; read as a DER integer (two's complement) it is that
    number for every H below 128, as for the cofactor 1. *)
Theorem encoded_cofactor_value (key : Key.t) (out h : ByteString.t) :
  encodeKeyUsingPKCS8Format key = Ok out ->
  getComponent key ECC_H = Ok h ->
  exists root vh,
    ASN1.parse out = Ok root /\
    nodeAt root [1; 1; 0] = Ok (ASN1.Primitive ASN1.INTEGER vh) /\
    unsignedValue vh = unsignedValue h /\
    ((unsignedValue h < 128)%N ->
     signedValue vh = Z.of_N (unsignedValue h)).
Proof.
  intros H HH.
  destruct (encode_Ok key out H)
    as (h' & p & a & b & gx & gy & n & d & block & _ & EH & _ & _ & _
        & _ & _ & _ & _ & _ & _ & _ & _ & _ & Hparse).
  unfold getComponent in HH. rewrite EH in HH. injection HH as <-.
  eexists _, (dropZeros h').
  split; [exact Hparse|]. split; [reflexivity|].
  split; [apply unsignedValue_dropZeros | apply small_value_no_high_bit].
Qed.

Lemma encoded_cofactor_value_witness :
  exists root vh,
    ASN1.parse sampleEncoding = Ok root /\
    nodeAt root [1; 1; 0] = Ok (ASN1.Primitive ASN1.INTEGER vh) /\
    unsignedValue vh = unsignedValue [x00; x01] /\
    ((unsignedValue [x00; x01] < 128)%N ->
     signedValue vh = Z.of_N (unsignedValue [x00; x01])).
Proof.
  exact (encoded_cofactor_value sampleKey sampleEncoding [x00; x01]
           eq_refl eq_refl).
Defined.
